(** * Rule-based behaviour classifier: [behaviour_analysis.py]

    A shallow embedding of [OrangutanBehaviorAnalyzer] and the properties of
    its per-frame confidence scoring, normalisation and labelling.

    Numbers are modelled as the interpreter has them: table cells and
    everything computed from them are IEEE 754 binary64 values (Rocq's
    primitive [float], the same format as Python's [float] and numpy's
    [float64]), the rule weights and raw scores are Python [int]s ([Z]), and
    a value that can be either (the entries of the confidence dictionary, the
    result of [calculate_velocity]) is a [pynum].  Exceptions are values of
    [result].

    What the model takes from the run time rather than from the file:
    - a row has the thirty coordinate columns of [preprocess_csv], all of
      dtype float64 (a table of integer columns only, which pandas would
      read as int64, is outside the model);
    - [x ** 2] is the correctly rounded product [x * x];
    - [math.sqrt] raises [ValueError] on a negative argument and on nothing
      else; [math.atan2] never raises and is CPython's [m_atan2] around the
      C library's [atan2], which is a parameter ([Libm]);
    - printing and the writing of the output file are left out: the result
      of [analyze_all_frames] is the list of rows handed to the writer.

    Two more programs of the repository are embedded next to the analyzer:
    - [add_behavior_overlay] of [video_overlay.py], from the check of the
      frame rate on: the video is the number of frames the capture
      delivers, the two timing arguments are floats, and what is kept of
      each written frame is the label and the confidence of its text;
    - [preprocess_csv] of [pre_processing.py], from the table read to the
      table written, over tables with pandas' default index;
      [pd.to_numeric] is a parameter ([ToNumeric]). *)

From Stdlib Require Import ZArith List String Bool Lia Floats QArith Qabs.
From Stdlib Require Import DecimalString.
From Stdlib Require Reals Lra.
Import ListNotations.

Open Scope string_scope.
Open Scope list_scope.
Open Scope Z_scope.

(** ** Exceptions *)

Inductive exn : Set :=
| ValueError
| ZeroDivisionError
| IndexError
| KeyError.

Inductive result (A : Type) : Type :=
| Ok (a : A)
| Raise (e : exn).

Arguments Ok {A} a.
Arguments Raise {A} e.

Definition bind {A B : Type} (c : result A) (k : A -> result B) : result B :=
  match c with
  | Ok a => k a
  | Raise e => Raise e
  end.

Notation "x <- c ;; k" := (bind c (fun x => k))
  (at level 61, c at next level, right associativity).
Notation "' p <- c ;; k" := (bind c (fun x => let 'p := x in k))
  (at level 61, p pattern, c at next level, right associativity).

Fixpoint mapM {A B : Type} (f : A -> result B) (l : list A) : result (list B) :=
  match l with
  | [] => Ok []
  | a :: l' => b <- f a ;; bs <- mapM f l' ;; Ok (b :: bs)
  end.

(** ** binary64 helpers and the [math] module *)

Module Py.

(** [math.pi], the double nearest to pi. *)
Definition pi : float := 0x1.921fb54442d18p+1%float.

(** CPython: [static const double radToDeg = 180.0 / Py_MATH_PI]. *)
Definition radToDeg : float := (180 / pi)%float.

(** [math.degrees(x)] is [x * radToDeg]. *)
Definition degrees (x : float) : float := (x * radToDeg)%float.

(** [copysign(x, y)]: the magnitude of [x] with the sign bit of [y]. *)
Definition copysign (x y : float) : float :=
  if get_sign y then (- abs x)%float else abs x.

(** [x ** 2] on a float: the correctly rounded square. *)
Definition sq (x : float) : float := (x * x)%float.

(** [math.sqrt]: [ValueError] ("math domain error") on a negative
    argument; nan, zeros and +inf are returned unchanged by the IEEE
    square root. *)
Definition math_sqrt (x : float) : result float :=
  if (x <? 0)%float then Raise ValueError else Ok (PrimFloat.sqrt x).

(** An [int] as a float (exact for every constant of the program; Python
    rounds the same way up to the overflow of huge ints). *)
Definition float_of_Z (z : Z) : float :=
  SF2Prim (binary_normalize prec emax z 0 false).

End Py.

(** The platform's C [atan2], used by [math.atan2] away from its special
    cases.  The C standard has it return a value in the interval from -pi to
    pi; on doubles that is a magnitude of at most [math.pi]. *)
Class Libm : Type := Build_Libm {
  libm_atan2 : float -> float -> float;
  libm_atan2_range :
    forall y x,
      is_nan y = false -> is_nan x = false ->
      (abs (libm_atan2 y x) <=? Py.pi)%float = true
}.

Section MathAtan2.
Context {L : Libm}.

(** [math.atan2(y, x)]: CPython's [m_atan2], which fixes the results at
    nan, infinities and zeros itself (C99 Annex F) and calls the libm
    otherwise. *)
Definition math_atan2 (y x : float) : float :=
  if is_nan x || is_nan y then nan
  else if is_infinity y then
    if is_infinity x then
      if negb (get_sign x) then Py.copysign (0.25 * Py.pi)%float y
      else Py.copysign (0.75 * Py.pi)%float y
    else Py.copysign (0.5 * Py.pi)%float y
  else if is_infinity x || (y =? 0)%float then
    if negb (get_sign x) then Py.copysign 0%float y
    else Py.copysign Py.pi y
  else libm_atan2 y x.

End MathAtan2.

(** ** Python numbers *)

(** A value that is an [int] or a [float] at run time. *)
Inductive pynum : Set :=
| PyInt (z : Z)
| PyFloat (f : float).

Definition to_float (a : pynum) : float :=
  match a with
  | PyInt z => Py.float_of_Z z
  | PyFloat f => f
  end.

(** [a < b].  Two ints compare as integers; otherwise the comparison is the
    IEEE one (false as soon as an operand is nan). *)
Definition py_lt (a b : pynum) : bool :=
  match a, b with
  | PyInt x, PyInt y => x <? y
  | _, _ => (to_float a <? to_float b)%float
  end.

Definition py_gt (a b : pynum) : bool := py_lt b a.

(** [a <= b] and [a == b], used to state properties of the output. *)
Definition py_le (a b : pynum) : bool :=
  match a, b with
  | PyInt x, PyInt y => x <=? y
  | _, _ => (to_float a <=? to_float b)%float
  end.

Definition py_eq (a b : pynum) : bool :=
  match a, b with
  | PyInt x, PyInt y => x =? y
  | _, _ => (to_float a =? to_float b)%float
  end.

Definition py_add (a b : pynum) : pynum :=
  match a, b with
  | PyInt x, PyInt y => PyInt (x + y)
  | _, _ => PyFloat (to_float a + to_float b)%float
  end.

Definition py_mul (a b : pynum) : pynum :=
  match a, b with
  | PyInt x, PyInt y => PyInt (x * y)
  | _, _ => PyFloat (to_float a * to_float b)%float
  end.

(** [a / b]: true division always yields a float and raises
    [ZeroDivisionError] on a zero divisor. *)
Definition py_truediv (a b : pynum) : result pynum :=
  if py_eq b (PyInt 0) then Raise ZeroDivisionError
  else Ok (PyFloat (to_float a / to_float b)%float).

(** [sum(values)]: left to right from the int [0]. *)
Definition py_sum (l : list pynum) : pynum := fold_left py_add l (PyInt 0).

(** ** Dictionaries with string keys, in insertion order *)

Definition dict (V : Type) : Type := list (string * V).

Fixpoint dict_get {V : Type} (d : dict V) (k : string) : result V :=
  match d with
  | [] => Raise KeyError
  | (k', v) :: d' => if String.eqb k k' then Ok v else dict_get d' k
  end.

Definition values {V : Type} (d : dict V) : list V := map snd d.

(** [max(items, key=lambda x: x[1])]: the first item whose value no later
    item exceeds (a candidate is replaced only when the next value is
    strictly greater); [ValueError] on an empty argument. *)
Fixpoint max_from (best : string * pynum) (l : list (string * pynum))
  : string * pynum :=
  match l with
  | [] => best
  | x :: l' => max_from (if py_gt (snd x) (snd best) then x else best) l'
  end.

Definition max_by_value (items : list (string * pynum))
  : result (string * pynum) :=
  match items with
  | [] => Raise ValueError
  | x :: l => Ok (max_from x l)
  end.

(** ** The frame table *)

(** One row of the table read by [pd.read_csv]: the thirty coordinate
    columns written by [preprocess_csv]. *)
Record JointFrame : Set := {
  head_x : float; head_y : float;
  chest_x : float; chest_y : float;
  torso_x : float; torso_y : float;
  left_shoulder_x : float; left_shoulder_y : float;
  left_elbow_x : float; left_elbow_y : float;
  left_hand_x : float; left_hand_y : float;
  right_shoulder_x : float; right_shoulder_y : float;
  right_elbow_x : float; right_elbow_y : float;
  right_hand_x : float; right_hand_y : float;
  left_hip_x : float; left_hip_y : float;
  left_knee_x : float; left_knee_y : float;
  left_foot_x : float; left_foot_y : float;
  right_hip_x : float; right_hip_y : float;
  right_knee_x : float; right_knee_y : float;
  right_foot_x : float; right_foot_y : float
}.

(** The joint names from which [get_joint_coordinates] builds its two
    column names. *)
Inductive joint : Set :=
| head | chest | torso
| left_shoulder | left_elbow | left_hand
| right_shoulder | right_elbow | right_hand
| left_hip | left_knee | left_foot
| right_hip | right_knee | right_foot.

(** [self.data.iloc[i]] for [i >= 0]: [IndexError] past the end. *)
Definition iloc (data : list JointFrame) (i : nat) : result JointFrame :=
  match nth_error data i with
  | Some row => Ok row
  | None => Raise IndexError
  end.

(** One row of the output table. *)
Record FrameResult : Set := {
  Frame : Z;
  Sitting : pynum;
  Walking : pynum;
  Climbing : pynum;
  Classified_Behavior : string;
  Confidence : pynum
}.

(** ** The analyzer *)

Section Analyzer.
Context {L : Libm}.

Definition behaviors : list string := ["sitting"; "walking"; "climbing"].

Definition calculate_distance (x1 y1 x2 y2 : float) : result float :=
  Py.math_sqrt (Py.sq (x2 - x1) + Py.sq (y2 - y1))%float.

Definition calculate_angle (point1 point2 point3 : float * float) : float :=
  let '(x1, y1) := point1 in
  let '(x2, y2) := point2 in
  let '(x3, y3) := point3 in
  let angle :=
    Py.degrees (math_atan2 (y3 - y2) (x3 - x2)
                - math_atan2 (y1 - y2) (x1 - x2))%float in
  abs angle.

Definition get_joint_coordinates (row : JointFrame) (j : joint)
  : float * float :=
  match j with
  | head => (head_x row, head_y row)
  | chest => (chest_x row, chest_y row)
  | torso => (torso_x row, torso_y row)
  | left_shoulder => (left_shoulder_x row, left_shoulder_y row)
  | left_elbow => (left_elbow_x row, left_elbow_y row)
  | left_hand => (left_hand_x row, left_hand_y row)
  | right_shoulder => (right_shoulder_x row, right_shoulder_y row)
  | right_elbow => (right_elbow_x row, right_elbow_y row)
  | right_hand => (right_hand_x row, right_hand_y row)
  | left_hip => (left_hip_x row, left_hip_y row)
  | left_knee => (left_knee_x row, left_knee_y row)
  | left_foot => (left_foot_x row, left_foot_y row)
  | right_hip => (right_hip_x row, right_hip_y row)
  | right_knee => (right_knee_x row, right_knee_y row)
  | right_foot => (right_foot_x row, right_foot_y row)
  end.

Definition calculate_velocity (current_frame : JointFrame)
    (previous_frame : option JointFrame) (j : joint) : result pynum :=
  match previous_frame with
  | None => Ok (PyInt 0)
  | Some previous_frame =>
      let '(curr_x, curr_y) := get_joint_coordinates current_frame j in
      let '(prev_x, prev_y) := get_joint_coordinates previous_frame j in
      d <- calculate_distance curr_x curr_y prev_x prev_y ;;
      Ok (PyFloat d)
  end.

Definition calculate_centre_hip
    (left_hip_x left_hip_y right_hip_x right_hip_y : float) : float * float :=
  let center_hip_x := ((left_hip_x + right_hip_x) / 2)%float in
  let center_hip_y := ((left_hip_y + right_hip_y) / 2)%float in
  (center_hip_x, center_hip_y).

(** The value of the local [confidence] of [analyze_sitting] when its
    [return] is reached. *)
Definition sitting_confidence (row : JointFrame)
    (prev_row : option JointFrame) : result Z :=
  let confidence := 0 in
  left_hip_to_knee <-
    calculate_distance (left_hip_x row) (left_hip_y row)
                       (left_knee_x row) (left_knee_y row) ;;
  right_hip_to_knee <-
    calculate_distance (right_hip_x row) (right_hip_y row)
                       (right_knee_x row) (right_knee_y row) ;;
  let '(center_hip_x, center_hip_y) :=
    calculate_centre_hip (left_hip_x row) (left_hip_y row)
                         (right_hip_x row) (right_hip_y row) in
  let torso_angle :=
    calculate_angle (head_x row, head_y row) (torso_x row, torso_y row)
                    (center_hip_x, center_hip_y) in
  confidence <-
    match prev_row with
    | Some _ =>
        movement <- calculate_velocity row prev_row torso ;;
        Ok (if py_lt movement (PyInt 50) then confidence + 35
            else confidence)
    | None => Ok confidence
    end ;;
  let confidence :=
    if (left_hip_to_knee <? 100)%float && (right_hip_to_knee <? 100)%float
    then confidence + 35 else confidence in
  let confidence :=
    if (100 <? torso_angle)%float && (torso_angle <? 178)%float
    then confidence + 30 else confidence in
  Ok confidence.

Definition analyze_sitting (row : JointFrame) (prev_row : option JointFrame)
  : result Z :=
  confidence <- sitting_confidence row prev_row ;;
  Ok (Z.min confidence 100).

(** The local [confidence] of [analyze_climbing] at its [return]. *)
Definition climbing_confidence (row : JointFrame)
    (prev_row : option JointFrame) : result Z :=
  let confidence := 0 in
  left_arm_extension <-
    calculate_distance (left_shoulder_x row) (left_shoulder_y row)
                       (left_hand_x row) (left_hand_y row) ;;
  right_arm_extension <-
    calculate_distance (right_shoulder_x row) (right_shoulder_y row)
                       (right_hand_x row) (right_hand_y row) ;;
  let hands_elevated :=
    (left_hand_y row <? torso_y row)%float
    && (right_hand_y row <? torso_y row)%float in
  let feet_hanging :=
    (torso_y row <? left_foot_y row)%float
    && (torso_y row <? right_foot_y row)%float in
  let confidence :=
    if (125 <? left_arm_extension)%float
       || (125 <? right_arm_extension)%float
    then confidence + 40 else confidence in
  let confidence := if hands_elevated then confidence + 30 else confidence in
  let confidence := if feet_hanging then confidence + 30 else confidence in
  Ok confidence.

Definition analyze_climbing (row : JointFrame) (prev_row : option JointFrame)
  : result Z :=
  confidence <- climbing_confidence row prev_row ;;
  Ok (Z.min confidence 100).

(** The local [confidence] of [analyze_walking] at its [return]. *)
Definition walking_confidence (row : JointFrame)
    (prev_row : option JointFrame) : result Z :=
  let confidence := 0 in
  leg_separation <-
    calculate_distance (left_foot_x row) (left_foot_y row)
                       (right_foot_x row) (right_foot_y row) ;;
  let confidence :=
    match prev_row with
    | Some prev_row =>
        let horizontal_movement :=
          abs (torso_x row - torso_x prev_row)%float in
        if (90 <? horizontal_movement)%float
           && (horizontal_movement <? 1000)%float
        then confidence + 50 else confidence
    | None => confidence
    end in
  let confidence :=
    if (115 <? leg_separation)%float && (leg_separation <? 125)%float
    then confidence + 50 else confidence in
  Ok confidence.

Definition analyze_walking (row : JointFrame) (prev_row : option JointFrame)
  : result Z :=
  confidence <- walking_confidence row prev_row ;;
  Ok (Z.min confidence 100).

(** The three raw scores, in the order the dictionary literal lists
    them. *)
Definition raw_confidences (current_row : JointFrame)
    (previous_row : option JointFrame) : result (dict pynum) :=
  sitting <- analyze_sitting current_row previous_row ;;
  walking <- analyze_walking current_row previous_row ;;
  climbing <- analyze_climbing current_row previous_row ;;
  Ok [("sitting", PyInt sitting); ("walking", PyInt walking);
      ("climbing", PyInt climbing)].

(** The normalisation step of [analyze_frame]. *)
Definition normalize (confidences : dict pynum) : result (dict pynum) :=
  let total := py_sum (values confidences) in
  if py_gt total (PyInt 0) then
    mapM (fun '(k, v) =>
            q <- py_truediv v total ;; Ok (k, py_mul q (PyInt 100)))
         confidences
  else Ok confidences.

Definition analyze_frame (data : list JointFrame) (frame_idx : nat)
  : result (dict pynum) :=
  current_row <- iloc data frame_idx ;;
  previous_row <-
    (if (0 <? frame_idx)%nat
     then row <- iloc data (frame_idx - 1) ;; Ok (Some row)
     else Ok None) ;;
  confidences <- raw_confidences current_row previous_row ;;
  normalize confidences.

(** The majority step of the loop body: the selected item, before the
    label is overridden. *)
Definition majority (confidences : dict pynum) : result (string * pynum) :=
  max_by_value confidences.

(** The body of the loop of [analyze_all_frames] for one [frame_idx]: the
    dictionary appended to [results]. *)
Definition frame_result (data : list JointFrame) (frame_idx : nat)
  : result FrameResult :=
  confidences <- analyze_frame data frame_idx ;;
  '(majority_behavior, majority_confidence) <- majority confidences ;;
  let majority_behavior :=
    if py_lt majority_confidence (PyInt 40) then "unknown"
    else majority_behavior in
  sitting <- dict_get confidences "sitting" ;;
  walking <- dict_get confidences "walking" ;;
  climbing <- dict_get confidences "climbing" ;;
  Ok {| Frame := Z.of_nat frame_idx + 1;
        Sitting := sitting;
        Walking := walking;
        Climbing := climbing;
        Classified_Behavior := majority_behavior;
        Confidence := majority_confidence |}.

(** The loop over [range(len(self.data))], appending to [results]. *)
Fixpoint analyze_loop (data : list JointFrame) (indices : list nat)
    (results : list FrameResult) : result (list FrameResult) :=
  match indices with
  | [] => Ok results
  | frame_idx :: rest =>
      r <- frame_result data frame_idx ;;
      analyze_loop data rest (results ++ [r])
  end.

(** [analyze_all_frames]: the rows handed to [pd.DataFrame(results)] and
    written to the output file. *)
Definition analyze_all_frames (data : list JointFrame)
  : result (list FrameResult) :=
  analyze_loop data (seq 0 (List.length data)) [].

End Analyzer.


(** * Vocabulary of the statements *)

(** ** The sub-rules, as the specification words them *)

Module Rules.

(** Planar distance between two points. *)
Definition euclidean (p q : float * float) : float :=
  PrimFloat.sqrt (Py.sq (fst q - fst p) + Py.sq (snd q - snd p))%float.

(** Arithmetic mean of two points. *)
Definition midpoint (p q : float * float) : float * float :=
  (((fst p + fst q) / 2)%float, ((snd p + snd q) / 2)%float).

(** [lo < x < hi], both strict. *)
Definition strictly_between (lo x hi : float) : bool :=
  (lo <? x)%float && (x <? hi)%float.

(** The points of a row. *)
Definition pt (row : JointFrame) (j : joint) : float * float :=
  get_joint_coordinates row j.

(** The fixed weight of a sub-rule that fired, 0 otherwise. *)
Definition weight (w : Z) (fired : bool) : Z := if fired then w else 0.

Section WithLibm.
Context {L : Libm}.

(** Sitting: the torso moved less than 50 since the previous frame. *)
Definition low_movement (row : JointFrame) (prev : option JointFrame)
  : bool :=
  match prev with
  | Some p => (euclidean (pt row torso) (pt p torso) <? 50)%float
  | None => false
  end.

(** Sitting: each hip is less than 100 from its knee. *)
Definition legs_bent (row : JointFrame) : bool :=
  (euclidean (pt row left_hip) (pt row left_knee) <? 100)%float
  && (euclidean (pt row right_hip) (pt row right_knee) <? 100)%float.

(** Sitting: the angle at the torso between head and hip centre lies
    strictly between 100 and 178 degrees. *)
Definition torso_upright (row : JointFrame) : bool :=
  strictly_between 100
    (calculate_angle (pt row head) (pt row torso)
       (midpoint (pt row left_hip) (pt row right_hip)))
    178.

(** Walking: the torso moved horizontally by more than 90 and less than
    1000 since the previous frame. *)
Definition horizontal_movement (row : JointFrame)
    (prev : option JointFrame) : bool :=
  match prev with
  | Some p =>
      strictly_between 90 (abs (torso_x row - torso_x p)%float) 1000
  | None => false
  end.

(** Walking: the feet are more than 115 and less than 125 apart. *)
Definition feet_apart (row : JointFrame) : bool :=
  strictly_between 115
    (euclidean (pt row left_foot) (pt row right_foot)) 125.

(** Climbing: either arm is extended by more than 125. *)
Definition arm_extended (row : JointFrame) : bool :=
  (125 <? euclidean (pt row left_shoulder) (pt row left_hand))%float
  || (125 <? euclidean (pt row right_shoulder) (pt row right_hand))%float.

(** Climbing: both hands are above the torso (smaller y). *)
Definition hands_elevated (row : JointFrame) : bool :=
  (left_hand_y row <? torso_y row)%float
  && (right_hand_y row <? torso_y row)%float.

(** Climbing: both feet are below the torso (larger y). *)
Definition feet_hanging (row : JointFrame) : bool :=
  (torso_y row <? left_foot_y row)%float
  && (torso_y row <? right_foot_y row)%float.

Definition sitting_sum (row : JointFrame) (prev : option JointFrame) : Z :=
  weight 35 (low_movement row prev) + weight 35 (legs_bent row)
  + weight 30 (torso_upright row).

Definition walking_sum (row : JointFrame) (prev : option JointFrame) : Z :=
  weight 50 (horizontal_movement row prev) + weight 50 (feet_apart row).

Definition climbing_sum (row : JointFrame) : Z :=
  weight 40 (arm_extended row) + weight 30 (hands_elevated row)
  + weight 30 (feet_hanging row).

End WithLibm.

End Rules.

(** The values a raw score can take. *)
Definition sitting_scores : list Z := [0; 30; 35; 65; 70; 100].
Definition walking_scores : list Z := [0; 50; 100].
Definition climbing_scores : list Z := [0; 30; 40; 60; 70; 100].

(** The three categories, in the order of [behaviors]. *)
Inductive behavior : Set := sitting | walking | climbing.

Definition name (b : behavior) : string :=
  match b with
  | sitting => "sitting"
  | walking => "walking"
  | climbing => "climbing"
  end.

(** Position in the declaration order. *)
Definition rank (b : behavior) : nat :=
  match b with
  | sitting => 0
  | walking => 1
  | climbing => 2
  end.

(** The confidence column of a category in an output row. *)
Definition column (b : behavior) (r : FrameResult) : pynum :=
  match b with
  | sitting => Sitting r
  | walking => Walking r
  | climbing => Climbing r
  end.

(** The dictionary built by [analyze_frame] from three raw scores. *)
Definition raw_dict (s w c : Z) : dict pynum :=
  [("sitting", PyInt s); ("walking", PyInt w); ("climbing", PyInt c)].

(** The previous row handed to the scoring functions at [frame_idx]. *)
Definition previous (data : list JointFrame) (frame_idx : nat)
  : option JointFrame :=
  match frame_idx with
  | O => None
  | S i => nth_error data i
  end.

(** The rest of the loop body once [analyze_frame] has returned. *)
Definition classify (frame_idx : nat) (confidences : dict pynum)
  : result FrameResult :=
  '(majority_behavior, majority_confidence) <- majority confidences ;;
  let majority_behavior :=
    if py_lt majority_confidence (PyInt 40) then "unknown"
    else majority_behavior in
  sitting <- dict_get confidences "sitting" ;;
  walking <- dict_get confidences "walking" ;;
  climbing <- dict_get confidences "climbing" ;;
  Ok {| Frame := Z.of_nat frame_idx + 1;
        Sitting := sitting;
        Walking := walking;
        Climbing := climbing;
        Classified_Behavior := majority_behavior;
        Confidence := majority_confidence |}.

(** ** Exact values and sums *)

(** The rational number a finite float stands for. *)
Definition exact (f : float) : option Q :=
  match Prim2SF f with
  | S754_zero _ => Some 0%Q
  | S754_finite s m e =>
      Some ((if s then - inject_Z (Zpos m) else inject_Z (Zpos m))
            * Qpower 2 e)%Q
  | S754_infinity _ | S754_nan => None
  end.

Definition exact_num (a : pynum) : option Q :=
  match a with
  | PyInt z => Some (inject_Z z)
  | PyFloat f => exact f
  end.

(** The exact sum of three confidences. *)
Definition exact_sum (a b c : pynum) : option Q :=
  match exact_num a, exact_num b, exact_num c with
  | Some x, Some y, Some z => Some (x + y + z)%Q
  | _, _, _ => None
  end.

(** [a + b + c] as Python evaluates it. *)
Definition py_sum3 (a b c : pynum) : pynum := py_add (py_add a b) c.

(** 100 up to one unit in the last place: 100 or one of the two doubles
    next to it. *)
Definition near_100 (a : pynum) : Prop :=
  a = PyFloat 100 \/ a = PyFloat (next_down 100) \/ a = PyFloat (next_up 100).

(** The value [v / total * 100] of the dictionary comprehension. *)
Definition share (v total : Z) : pynum :=
  PyFloat (Py.float_of_Z v / Py.float_of_Z total * 100)%float.

(** ** Missing coordinates *)

(** Some coordinate of the list is nan. *)
Definition any_nan (l : list float) : bool := existsb is_nan l.


(** ** Magnitudes of binary64 values *)

(** A value that is not below zero: a zero, a positive number, +inf or
    nan. *)
Definition not_negative (v : spec_float) : Prop :=
  match v with
  | S754_zero _ | S754_nan => True
  | S754_infinity s | S754_finite s _ _ => s = false
  end.

(** The real number [m * 2^e]. *)
Definition scaled (m e : Z) : Rdefinitions.R :=
  Rdefinitions.Rmult (Rdefinitions.IZR m)
    (Rfunctions.powerRZ (Rdefinitions.IZR 2) e).

(** After [k] one-bit shifts of [M]: the quotient by [2^k], and round or
    sticky bits set only if the division left a remainder. *)
Definition shifted (M : Z) (k : nat) (mrs : shr_record) : Prop :=
  shr_m mrs = M / 2 ^ Z.of_nat k
  /\ (shr_r mrs || shr_s mrs = true -> M mod 2 ^ Z.of_nat k <> 0).

(** The magnitude of [v] is at most [mB * 2^eB]. *)
Definition at_most (v : spec_float) (mB : positive) (eB : Z) : Prop :=
  match v with
  | S754_zero _ => True
  | S754_finite _ m e =>
      Rdefinitions.Rle (scaled (Z.pos m) e) (scaled (Z.pos mB) eB)
  | S754_infinity _ | S754_nan => False
  end.

(** ** Worked frames *)

(** A first frame with nothing but the walking foot rule and the three
    climbing rules firing: raw scores 0, 50 and 100. *)
Definition hanging_frame : JointFrame :=
  {| head_x := 0; head_y := 200;
     chest_x := 50; chest_y := 200;
     torso_x := 100; torso_y := 200;
     left_shoulder_x := 50; left_shoulder_y := 190;
     left_elbow_x := 50; left_elbow_y := 110;
     left_hand_x := 50; left_hand_y := 40;
     right_shoulder_x := 50; right_shoulder_y := 210;
     right_elbow_x := 50; right_elbow_y := 130;
     right_hand_x := 50; right_hand_y := 60;
     left_hip_x := 200; left_hip_y := 190;
     left_knee_x := 200; left_knee_y := 300;
     left_foot_x := 140; left_foot_y := 400;
     right_hip_x := 200; right_hip_y := 210;
     right_knee_x := 200; right_knee_y := 320;
     right_foot_x := 260; right_foot_y := 400 |}.

(** A second frame, at rest after [hanging_frame]: torso unmoved and legs
    bent (sitting 70), an arm stretched with both hands above the torso
    (climbing 70), feet close together (walking 0). *)
Definition resting_frame : JointFrame :=
  {| head_x := 0; head_y := 200;
     chest_x := 50; chest_y := 200;
     torso_x := 100; torso_y := 200;
     left_shoulder_x := 50; left_shoulder_y := 190;
     left_elbow_x := 50; left_elbow_y := 110;
     left_hand_x := 50; left_hand_y := 40;
     right_shoulder_x := 50; right_shoulder_y := 210;
     right_elbow_x := 50; right_elbow_y := 180;
     right_hand_x := 50; right_hand_y := 150;
     left_hip_x := 200; left_hip_y := 190;
     left_knee_x := 150; left_knee_y := 190;
     left_foot_x := 140; left_foot_y := 200;
     right_hip_x := 200; right_hip_y := 210;
     right_knee_x := 150; right_knee_y := 210;
     right_foot_x := 160; right_foot_y := 200 |}.

Definition two_frames : list JointFrame := [hanging_frame; resting_frame].

(** The rows the analyzer writes for [two_frames]; the two confidences of
    the first are the doubles printed 33.33333333333333 and
    66.66666666666666. *)
Definition hanging_record : FrameResult :=
  {| Frame := 1;
     Sitting := PyFloat 0;
     Walking := PyFloat 0x1.0aaaaaaaaaaaap+5;
     Climbing := PyFloat 0x1.0aaaaaaaaaaaap+6;
     Classified_Behavior := "climbing";
     Confidence := PyFloat 0x1.0aaaaaaaaaaaap+6 |}.

Definition resting_record : FrameResult :=
  {| Frame := 2;
     Sitting := PyFloat 50;
     Walking := PyFloat 0;
     Climbing := PyFloat 50;
     Classified_Behavior := "sitting";
     Confidence := PyFloat 50 |}.

(** A frame in which no joint was detected. *)
Definition missing_frame : JointFrame :=
  {| head_x := nan; head_y := nan;
     chest_x := nan; chest_y := nan;
     torso_x := nan; torso_y := nan;
     left_shoulder_x := nan; left_shoulder_y := nan;
     left_elbow_x := nan; left_elbow_y := nan;
     left_hand_x := nan; left_hand_y := nan;
     right_shoulder_x := nan; right_shoulder_y := nan;
     right_elbow_x := nan; right_elbow_y := nan;
     right_hand_x := nan; right_hand_y := nan;
     left_hip_x := nan; left_hip_y := nan;
     left_knee_x := nan; left_knee_y := nan;
     left_foot_x := nan; left_foot_y := nan;
     right_hip_x := nan; right_hip_y := nan;
     right_knee_x := nan; right_knee_y := nan;
     right_foot_x := nan; right_foot_y := nan |}.

(** A libm in miniature, to run the analyzer on arbitrary points: right
    angles on the y axis, the middle of the quadrant elsewhere. *)
Definition quadrant_atan2 (y x : float) : float :=
  if (x =? 0)%float then Py.copysign (0.5 * Py.pi)%float y
  else if (x <? 0)%float then Py.copysign (0.75 * Py.pi)%float y
  else Py.copysign (0.25 * Py.pi)%float y.

Lemma quadrant_atan2_range (y x : float) :
  is_nan y = false -> is_nan x = false ->
  (abs (quadrant_atan2 y x) <=? Py.pi)%float = true.
Proof.
  intros _ _. unfold quadrant_atan2, Py.copysign.
  destruct (x =? 0)%float; [| destruct (x <? 0)%float];
    destruct (get_sign y); vm_compute; reflexivity.
Qed.

Definition quadrant_libm : Libm :=
  {| libm_atan2 := quadrant_atan2; libm_atan2_range := quadrant_atan2_range |}.


(** ** Further vocabulary *)

(** A row with the left and right joints exchanged. *)
Definition mirror (row : JointFrame) : JointFrame :=
  {| head_x := head_x row; head_y := head_y row;
     chest_x := chest_x row; chest_y := chest_y row;
     torso_x := torso_x row; torso_y := torso_y row;
     left_shoulder_x := right_shoulder_x row;
     left_shoulder_y := right_shoulder_y row;
     left_elbow_x := right_elbow_x row; left_elbow_y := right_elbow_y row;
     left_hand_x := right_hand_x row; left_hand_y := right_hand_y row;
     right_shoulder_x := left_shoulder_x row;
     right_shoulder_y := left_shoulder_y row;
     right_elbow_x := left_elbow_x row; right_elbow_y := left_elbow_y row;
     right_hand_x := left_hand_x row; right_hand_y := left_hand_y row;
     left_hip_x := right_hip_x row; left_hip_y := right_hip_y row;
     left_knee_x := right_knee_x row; left_knee_y := right_knee_y row;
     left_foot_x := right_foot_x row; left_foot_y := right_foot_y row;
     right_hip_x := left_hip_x row; right_hip_y := left_hip_y row;
     right_knee_x := left_knee_x row; right_knee_y := left_knee_y row;
     right_foot_x := left_foot_x row; right_foot_y := left_foot_y row |}.

(** The raw score of a category in a triple. *)
Definition raw_of (b : behavior) (s w c : Z) : Z :=
  match b with
  | sitting => s
  | walking => w
  | climbing => c
  end.


(** ** [video_overlay.py]: the text shown on each video frame *)

(** [int(x)] for a float: truncation towards zero; nothing for an infinity
    ([OverflowError]) or a nan ([ValueError]). *)
Definition py_int (x : float) : option Z :=
  match Prim2SF x with
  | S754_zero _ => Some 0
  | S754_finite s m e =>
      let magnitude :=
        match e with
        | Zneg p => Z.pos m / 2 ^ Z.pos p
        | _ => Z.pos m * 2 ^ e
        end in
      Some (if s then - magnitude else magnitude)
  | S754_infinity _ | S754_nan => None
  end.

(** [a / b] on two floats: nothing ([ZeroDivisionError]) for a zero
    divisor. *)
Definition float_truediv (a b : float) : option float :=
  if (b =? 0)%float then None else Some (a / b)%float.

(** [df.iloc[i]] for a Python integer: a negative position counts from the
    end; nothing ([IndexError]) outside the table. *)
Definition iloc_row {A : Type} (df : list A) (i : Z) : option A :=
  if 0 <=? i then nth_error df (Z.to_nat i)
  else if - Z.of_nat (List.length df) <=? i
       then nth_error df (Z.to_nat (Z.of_nat (List.length df) + i))
       else None.

(** What the text of a frame is made of: [current_behavior] and
    [current_confidence]. *)
Record overlay : Set := {
  current_behavior : string;
  current_confidence : pynum
}.

(** The overlay before any row applies. *)
Definition initial_overlay : overlay :=
  {| current_behavior := "UNKNOWN"; current_confidence := PyFloat 100 |}.

(** The two exceptions [add_behavior_overlay] raises once its files are
    open: no frame rate, and anything raised inside the loop. *)
Inductive overlay_error : Set :=
| FpsUnknown
| ProcessingError.

(** The frames written to the output video, and how the call ended. *)
Inductive overlay_run : Set :=
| Finished (written : list overlay)
| Raised (e : overlay_error) (written : list overlay).

Definition written (r : overlay_run) : list overlay :=
  match r with
  | Finished ws | Raised _ ws => ws
  end.

Section Overlay.

(** [str.upper]. *)
Variable upper : string -> string.

(** The table read from the analyzer's output file, the frame rate of the
    video, and the two timing arguments. *)
Variable df : list FrameResult.
Variables fps start_time frame_interval : float.

(** The body of the loop for the frame numbered [frame_count]: the overlay
    drawn on it, or nothing when an exception is raised. *)
Definition overlay_frame (frame_count : Z) (current : overlay)
  : option overlay :=
  match float_truediv (Py.float_of_Z frame_count) fps with
  | None => None
  | Some current_time =>
      if (start_time <=? current_time)%float then
        let time_since_start := (current_time - start_time)%float in
        match float_truediv time_since_start frame_interval with
        | None => None
        | Some quotient =>
            match py_int quotient with
            | None => None
            | Some csv_index =>
                if csv_index <? Z.of_nat (List.length df) then
                  match iloc_row df csv_index with
                  | None => None
                  | Some row =>
                      Some {| current_behavior :=
                                upper (Classified_Behavior row);
                              current_confidence := Confidence row |}
                  end
                else Some current
            end
        end
      else Some current
  end.

(** The loop over the [frames] frames the capture still delivers: the
    overlays written, and whether the loop ended without an exception. *)
Fixpoint overlay_loop (frames : nat) (frame_count : Z) (current : overlay)
  : list overlay * bool :=
  match frames with
  | O => ([], true)
  | S frames' =>
      match overlay_frame frame_count current with
      | None => ([], false)
      | Some shown =>
          let '(ws, ok) := overlay_loop frames' (frame_count + 1) shown in
          (shown :: ws, ok)
      end
  end.

(** [add_behavior_overlay] from the check of the frame rate on, for a video
    of [frames] frames. *)
Definition add_behavior_overlay (frames : nat) : overlay_run :=
  if (fps =? 0)%float then Raised FpsUnknown []
  else
    let '(ws, ok) := overlay_loop frames 0 initial_overlay in
    if ok then Finished ws else Raised ProcessingError ws.

(** The time of frame [k] has reached [start_time]. *)
Definition started (k : nat) : bool :=
  (start_time <=? Py.float_of_Z (Z.of_nat k) / fps)%float.

(** The number of frames from [k] on, among the next [n], before the first
    one whose time has reached [start_time]. *)
Fixpoint frames_before_start (k n : nat) : nat :=
  match n with
  | O => O
  | S n' => if started k then O else S (frames_before_start (S k) n')
  end.

(** An overlay is the initial one or comes from a row of the table. *)
Definition from_table (o : overlay) : Prop :=
  o = initial_overlay
  \/ exists row,
      In row df
      /\ o = {| current_behavior := upper (Classified_Behavior row);
                current_confidence := Confidence row |}.

End Overlay.

(** The defaults of the two timing arguments, 8.04 and 2.68, as the doubles
    they denote. *)
Definition default_start_time : float := 0x1.0147ae147ae14p+3.
Definition default_frame_interval : float := 0x1.570a3d70a3d71p+1.

(** ASCII upper case, the effect of [str.upper] on the analyzer's labels. *)
Fixpoint upper_ascii (s : string) : string :=
  match s with
  | EmptyString => EmptyString
  | String ch s' =>
      let n := Ascii.nat_of_ascii ch in
      String
        (if ((97 <=? n) && (n <=? 122))%nat then Ascii.ascii_of_nat (n - 32)
         else ch)
        (upper_ascii s')
  end.

(** ** The column clean-up of [pre_processing.py] *)

(** A table as pandas holds it, column by column under the default
    [RangeIndex]: the number of rows and, in order, every column's label
    and values. *)
Record DataFrame (A : Type) : Type := {
  index_length : nat;
  columns : list (string * list A)
}.

Arguments index_length {A} d.
Arguments columns {A} d.

(** Every column has one value per row. *)
Definition well_formed {A : Type} (df : DataFrame A) : Prop :=
  Forall (fun column => List.length (snd column) = index_length df)
         (columns df).

(** [pd.to_numeric(column, errors='coerce')]: the library's conversion of a
    column, of which only the length of the result is used. *)
Class ToNumeric (cell number : Type) : Type := {
  to_numeric : list cell -> list number;
  to_numeric_length :
    forall column, List.length (to_numeric column) = List.length column
}.

(** [df.drop([0, 1]).reset_index(drop=True)]: [KeyError] when the index has
    no label 0 or no label 1; otherwise the first two rows go and the rest
    is numbered anew. *)
Definition drop_0_1 {A : Type} (df : DataFrame A) : result (DataFrame A) :=
  if (index_length df <? 2)%nat then Raise KeyError
  else Ok {| index_length := index_length df - 2;
             columns :=
               map (fun column => (fst column, skipn 2 (snd column)))
                   (columns df) |}.

(** [df.loc[:, mask]] for a mask computed from the labels. *)
Definition loc_columns {A : Type} (mask : string -> bool) (df : DataFrame A)
  : DataFrame A :=
  {| index_length := index_length df;
     columns := filter (fun column => mask (fst column)) (columns df) |}.

(** [df.iloc[:, :n]]. *)
Definition iloc_columns {A : Type} (n : nat) (df : DataFrame A)
  : DataFrame A :=
  {| index_length := index_length df; columns := firstn n (columns df) |}.

(** [df.columns = names]: [ValueError] unless there is one name per
    column. *)
Definition set_columns {A : Type} (names : list string) (df : DataFrame A)
  : result (DataFrame A) :=
  if (List.length names =? List.length (columns df))%nat then
    Ok {| index_length := index_length df;
          columns := combine names (map snd (columns df)) |}
  else Raise ValueError.

Definition column_names : list string :=
  ["head_x"; "head_y"; "chest_x"; "chest_y"; "torso_x"; "torso_y";
   "left_shoulder_x"; "left_shoulder_y"; "left_elbow_x"; "left_elbow_y";
   "left_hand_x"; "left_hand_y"; "right_shoulder_x"; "right_shoulder_y";
   "right_elbow_x"; "right_elbow_y"; "right_hand_x"; "right_hand_y";
   "left_hip_x"; "left_hip_y"; "left_knee_x"; "left_knee_y"; "left_foot_x";
   "left_foot_y"; "right_hip_x"; "right_hip_y"; "right_knee_x";
   "right_knee_y"; "right_foot_x"; "right_foot_y"].

(** The columns kept by step 2: those whose label starts with [test]. *)
Definition test_columns {A : Type} (df : DataFrame A)
  : list (string * list A) :=
  filter (fun column => String.prefix "test" (fst column)) (columns df).

Section Preprocess.
Context {cell number : Type} {N : ToNumeric cell number}.

(** [preprocess_csv] from the table read to the table written.  The loop of
    step 6 replaces each column, found by its new and unique name, by its
    conversion. *)
Definition preprocess_csv (data : DataFrame cell)
  : result (DataFrame number) :=
  data_cleaned <- drop_0_1 data ;;
  let data_cleaned := loc_columns (String.prefix "test") data_cleaned in
  let data_cleaned :=
    if (List.length column_names <? List.length (columns data_cleaned))%nat
    then iloc_columns (List.length column_names) data_cleaned
    else data_cleaned in
  data_cleaned <- set_columns column_names data_cleaned ;;
  Ok {| index_length := index_length data_cleaned;
        columns :=
          map (fun column => (fst column, to_numeric (snd column)))
              (columns data_cleaned) |}.

End Preprocess.

(** A conversion for cells that are integers already. *)
#[export] Instance integer_cells : ToNumeric Z float :=
  {| to_numeric := map Py.float_of_Z;
     to_numeric_length := length_map Py.float_of_Z |}.

(** A table of three rows and thirty-two columns labelled as [read_csv]
    labels a tracker's file ([scorer], [test], [test.1], ...); the cell of
    row [r] in column [c] is [100 * c + r]. *)
Definition raw_table : DataFrame Z :=
  {| index_length := 3;
     columns :=
       map (fun c : nat =>
              (match c with
               | O => "scorer"
               | 1%nat => "test"
               | S (S c') =>
                   String.append "test."
                     (NilEmpty.string_of_uint (Nat.to_uint (S c')))
               end,
               map (fun r : nat => 100 * Z.of_nat c + Z.of_nat r)
                   (seq 0 3)))
           (seq 0 32) |}.

(** * Facts about binary64 arithmetic used below *)

Module FloatFacts.

Lemma binary_round_aux_sign (s : bool) (m e : Z) (l : location) :
  match binary_round_aux prec emax s m e l with
  | S754_zero s' | S754_infinity s' | S754_finite s' _ _ => s' = s
  | S754_nan => True
  end.
Proof.
  unfold binary_round_aux.
  destruct (shr_fexp prec emax m e l) as [mrs1 e1].
  destruct (shr_fexp prec emax _ e1 loc_Exact) as [mrs2 e2].
  destruct (shr_m mrs2); [reflexivity | | exact I].
  destruct (e2 <=? emax - prec); reflexivity.
Qed.

Lemma binary_round_aux_not_negative (m e : Z) (l : location) :
  not_negative (binary_round_aux prec emax false m e l).
Proof.
  pose proof (binary_round_aux_sign false m e l) as H.
  destruct (binary_round_aux prec emax false m e l); simpl; auto.
Qed.

Lemma SFmul_square_not_negative (v : spec_float) :
  not_negative (SF64mul v v).
Proof.
  destruct v as [s | s | | s m e]; simpl; auto.
  - destruct s; reflexivity.
  - replace (xorb s s) with false by (destruct s; reflexivity).
    apply binary_round_aux_not_negative.
Qed.

Lemma SFadd_not_negative (u v : spec_float) :
  not_negative u -> not_negative v -> not_negative (SF64add u v).
Proof.
  destruct u as [su | su | | su mu eu], v as [sv | sv | | sv mv ev];
    intros Hu Hv; cbn in Hu, Hv; subst;
    try exact I; try reflexivity; try (destruct su; exact I).
  - destruct su, sv; exact I.
  - unfold SF64add, SFadd, cond_Zopp, binary_normalize.
    cbn [Z.add]. unfold binary_round.
    match goal with
    | |- context [shl_align ?m ?e ?e'] =>
        destruct (shl_align m e e') as [mz ez]
    end.
    apply binary_round_aux_not_negative.
Qed.

Lemma not_negative_ltb_zero (v : spec_float) :
  not_negative v -> SFltb v (S754_zero false) = false.
Proof.
  destruct v as [s | s | | s m e]; simpl; intros H; subst; reflexivity.
Qed.

(** A sum of two squares never compares below zero, so the square root in
    [calculate_distance] is always defined. *)
Lemma sum_of_squares_not_lt_0 (a b : float) :
  (Py.sq a + Py.sq b <? 0)%float = false.
Proof.
  unfold Py.sq.
  rewrite ltb_spec, add_spec, !mul_spec.
  change (Prim2SF 0) with (S754_zero false).
  apply not_negative_ltb_zero, SFadd_not_negative;
    apply SFmul_square_not_negative.
Qed.

(** [is_nan] in terms of the specification. *)
Lemma is_nan_Prim2SF (x : float) :
  is_nan x = true <-> Prim2SF x = S754_nan.
Proof.
  unfold Prim2SF.
  destruct (is_nan x); [tauto |].
  split; [discriminate |].
  destruct (is_zero x); [discriminate |].
  destruct (is_infinity x); [discriminate |].
  destruct (Z.frexp x) as [r e].
  match goal with
  | |- context [shr_fexp ?p ?q ?m ?k ?l] =>
      destruct (shr_fexp p q m k l) as [mrs e']
  end.
  destruct (shr_m mrs); discriminate.
Qed.



Lemma sub_nan_l (x y : float) : is_nan x = true -> is_nan (x - y) = true.
Proof.
  intros H. apply is_nan_Prim2SF in H. apply is_nan_Prim2SF.
  rewrite sub_spec, H. reflexivity.
Qed.

Lemma sub_nan_r (x y : float) : is_nan y = true -> is_nan (x - y) = true.
Proof.
  intros H. apply is_nan_Prim2SF in H. apply is_nan_Prim2SF.
  rewrite sub_spec, H. destruct (Prim2SF x); reflexivity.
Qed.




Lemma mul_nan_l (x y : float) : is_nan x = true -> is_nan (x * y) = true.
Proof.
  intros H. apply is_nan_Prim2SF in H. apply is_nan_Prim2SF.
  rewrite mul_spec, H. reflexivity.
Qed.



Lemma abs_nan (x : float) : is_nan x = true -> is_nan (abs x) = true.
Proof.
  intros H. apply is_nan_Prim2SF in H. apply is_nan_Prim2SF.
  rewrite abs_spec, H. reflexivity.
Qed.

(** An absolute value never compares below zero. *)
Lemma abs_not_lt_0 (x : float) : (abs x <? 0)%float = false.
Proof.
  rewrite ltb_spec, abs_spec.
  change (Prim2SF 0) with (S754_zero false).
  destruct (Prim2SF x); reflexivity.
Qed.

End FloatFacts.


(** * Rounding of binary64 subtraction and multiplication *)

Module Rounding.
Import Reals Lra.
Local Open Scope R_scope.

Lemma two_neq_0 : 2 <> 0.
Proof. lra. Qed.

Lemma pow2_pos (e : Z) : 0 < powerRZ 2 e.
Proof. apply powerRZ_lt. lra. Qed.

Lemma pow2_add (a b : Z) : powerRZ 2 (a + b) = powerRZ 2 a * powerRZ 2 b.
Proof. apply powerRZ_add, two_neq_0. Qed.

Lemma pow2_succ (a : Z) : powerRZ 2 (a + 1) = 2 * powerRZ 2 a.
Proof. rewrite pow2_add. simpl. lra. Qed.

Lemma pow2_nonneg_IZR (n : Z) : (0 <= n)%Z -> powerRZ 2 n = IZR (2 ^ n).
Proof.
  intros Hn. rewrite <- (Z2Nat.id n Hn) at 1.
  rewrite <- pow_powerRZ. rewrite pow_IZR. rewrite Z2Nat.id by exact Hn.
  reflexivity.
Qed.

Lemma pow2_le (a b : Z) : (a <= b)%Z -> powerRZ 2 a <= powerRZ 2 b.
Proof.
  intros Hab. replace b with (a + (b - a))%Z by lia.
  rewrite pow2_add.
  assert (H1 : 1 <= powerRZ 2 (b - a)).
  { rewrite pow2_nonneg_IZR by lia. apply IZR_le.
    assert (0 < 2 ^ (b - a))%Z by (apply Z.pow_pos_nonneg; lia). lia. }
  pose proof (pow2_pos a). nra.
Qed.

Lemma pow2_lt (a b : Z) : (a < b)%Z -> powerRZ 2 a < powerRZ 2 b.
Proof.
  intros Hab.
  apply Rlt_le_trans with (powerRZ 2 (a + 1)).
  - rewrite pow2_succ. pose proof (pow2_pos a). lra.
  - apply pow2_le. lia.
Qed.

Lemma scaled_shift (m e n : Z) :
  (0 <= n)%Z -> scaled (m * 2 ^ n) e = scaled m (e + n).
Proof.
  intros Hn. unfold scaled. rewrite mult_IZR, pow2_add.
  rewrite (pow2_nonneg_IZR n Hn). ring.
Qed.

(** [digits2_pos] counts binary digits. *)
Lemma digits2_size (p : positive) : digits2_pos p = Pos.size p.
Proof. induction p; simpl; congruence. Qed.

Lemma digits2_bounds (p : positive) :
  (2 ^ (Z.pos (digits2_pos p) - 1) <= Z.pos p < 2 ^ Z.pos (digits2_pos p))%Z.
Proof.
  rewrite digits2_size. split.
  - pose proof (Pos.size_le p) as H.
    assert (H' : (2 ^ Z.pos (Pos.size p) <= 2 * Z.pos p)%Z).
    { rewrite <- Pos2Z.inj_pow. change (2 * Z.pos p)%Z with (Z.pos p~0).
      apply Pos2Z.pos_le_pos. exact H. }
    replace (Z.pos (Pos.size p)) with (Z.pos (Pos.size p) - 1 + 1)%Z in H'
      by lia.
    rewrite Z.pow_add_r in H' by lia. lia.
  - pose proof (Pos.size_gt p) as H.
    rewrite <- Pos2Z.inj_pow. apply Pos2Z.pos_lt_pos. exact H.
Qed.

Lemma scaled_digits (p : positive) (e : Z) :
  powerRZ 2 (Z.pos (digits2_pos p) - 1 + e) <= scaled (Z.pos p) e
  /\ scaled (Z.pos p) e < powerRZ 2 (Z.pos (digits2_pos p) + e).
Proof.
  destruct (digits2_bounds p) as [Hlo Hhi]. unfold scaled.
  rewrite !pow2_add. pose proof (pow2_pos e) as He.
  rewrite (pow2_nonneg_IZR (Z.pos (digits2_pos p) - 1)) by lia.
  rewrite (pow2_nonneg_IZR (Z.pos (digits2_pos p))) by lia.
  apply IZR_le in Hlo. apply IZR_lt in Hhi. split; nra.
Qed.


(** ** Shifting a mantissa right *)

Lemma iter_pos_nat {A : Type} (f : A -> A) (p : positive) (x : A) :
  SpecFloat.iter_pos f p x = Nat.iter (Pos.to_nat p) f x.
Proof.
  revert x. induction p as [p IH | p IH |]; intros x; cbn [SpecFloat.iter_pos].
  - rewrite !IH, Pos2Nat.inj_xI.
    replace (S (2 * Pos.to_nat p)) with (Pos.to_nat p + S (Pos.to_nat p))%nat
      by lia.
    rewrite Nat.iter_add, Nat.iter_succ_r. reflexivity.
  - rewrite !IH, Pos2Nat.inj_xO.
    replace (2 * Pos.to_nat p)%nat with (Pos.to_nat p + Pos.to_nat p)%nat
      by lia.
    rewrite Nat.iter_add. reflexivity.
  - reflexivity.
Qed.

Lemma shr_1_nonneg (m : Z) (r s : bool) :
  (0 <= m)%Z ->
  shr_1 {| shr_m := m; shr_r := r; shr_s := s |}
  = {| shr_m := Z.div2 m; shr_r := Z.odd m; shr_s := r || s |}.
Proof.
  intros Hm. destruct m as [| p | p]; [reflexivity | | lia].
  destruct p; reflexivity.
Qed.

Lemma shifted_iter (M : Z) (k : nat) :
  (0 <= M)%Z ->
  shifted M k
    (Nat.iter k shr_1 {| shr_m := M; shr_r := false; shr_s := false |}).
Proof.
  intros HM. induction k as [| k IH].
  - split; cbn.
    + rewrite Z.div_1_r. reflexivity.
    + discriminate.
  - rewrite Nat.iter_succ.
    destruct (Nat.iter k shr_1 _) as [m r s]. destruct IH as [Hm Hrs].
    cbn [shr_m shr_r shr_s] in Hm, Hrs.
    assert (H2k : (0 < 2 ^ Z.of_nat k)%Z) by (apply Z.pow_pos_nonneg; lia).
    assert (Hm0 : (0 <= m)%Z) by (subst m; apply Z.div_pos; lia).
    rewrite (shr_1_nonneg m r s Hm0).
    assert (Hpow : (2 ^ Z.of_nat (S k) = 2 ^ Z.of_nat k * 2)%Z).
    { rewrite Nat2Z.inj_succ, Z.pow_succ_r by lia. lia. }
    split; cbn [shr_m shr_r shr_s].
    + rewrite Z.div2_div, Hm, Hpow, Z.div_div by lia. reflexivity.
    + intros Hbits Hmod. rewrite Hpow in Hmod.
      pose proof (Z.div_mod M (2 ^ Z.of_nat k) ltac:(lia)) as Hdm.
      pose proof (Z.mod_pos_bound M (2 ^ Z.of_nat k) H2k) as Hb.
      apply Z.mod_divide in Hmod; [| lia]. destruct Hmod as [q Hq].
      assert (Hmk : (M mod 2 ^ Z.of_nat k = 0)%Z).
      { apply Z.mod_divide; [lia |]. exists (q * 2)%Z. lia. }
      apply orb_true_iff in Hbits. destruct Hbits as [Hodd | Hbits].
      * assert (Hmq : m = (2 * q)%Z) by nia.
        rewrite Hmq, Z.odd_mul in Hodd. discriminate.
      * apply Hrs; assumption.
Qed.

Lemma shr_shifted (M E : Z) (n : Z) (mrs : shr_record) (e : Z) :
  (0 <= M)%Z ->
  shr {| shr_m := M; shr_r := false; shr_s := false |} E n = (mrs, e) ->
  e = (E + Z.max n 0)%Z
  /\ shr_m mrs = (M / 2 ^ Z.max n 0)%Z
  /\ (shr_r mrs || shr_s mrs = true -> (M mod 2 ^ Z.max n 0)%Z <> 0%Z).
Proof.
  intros HM. unfold shr. destruct n as [| p | p]; intros H; injection H as <- <-.
  - cbn. rewrite Z.div_1_r, Z.add_0_r. repeat split. discriminate.
  - rewrite iter_pos_nat.
    destruct (shifted_iter M (Pos.to_nat p) HM) as [Hm Hrs].
    rewrite positive_nat_Z in Hm, Hrs.
    rewrite Z.max_l by lia. auto.
  - cbn. rewrite Z.div_1_r, Z.add_0_r. repeat split. discriminate.
Qed.

Lemma round_nearest_even_bounds (mrs : shr_record) :
  let m := round_nearest_even (shr_m mrs) (loc_of_shr_record mrs) in
  m = shr_m mrs
  \/ (m = (shr_m mrs + 1)%Z /\ shr_r mrs || shr_s mrs = true).
Proof.
  destruct mrs as [m [|] [|]]; cbn; auto.
  destruct (Z.even m); auto.
Qed.


(** ** Rounding stays below a representable bound *)

Lemma fexp_eq (x : Z) : fexp prec emax x = Z.max (x - 53) (-1074).
Proof. reflexivity. Qed.

Lemma bounded_inv (m : positive) (e : Z) :
  SpecFloat.bounded prec emax m e = true ->
  (e = Z.max (Z.pos (digits2_pos m) + e - 53) (-1074) /\ e <= 971)%Z.
Proof.
  unfold SpecFloat.bounded, canonical_mantissa. rewrite fexp_eq.
  intros H. apply andb_true_iff in H. destruct H as [Hc Hb].
  apply Z.eqb_eq in Hc. apply Z.leb_le in Hb.
  change (emax - prec)%Z with 971%Z in Hb. lia.
Qed.

(** A bounded float lies below every power of two from [2^(e + 53)] on. *)
Lemma bounded_lt_pow2 (m : positive) (e a : Z) :
  SpecFloat.bounded prec emax m e = true ->
  (e + 53 <= a)%Z ->
  scaled (Z.pos m) e < powerRZ 2 a.
Proof.
  intros Hb Ha. destruct (bounded_inv m e Hb) as [Hc _].
  destruct (scaled_digits m e) as [_ Hhi].
  eapply Rlt_le_trans; [exact Hhi |]. apply pow2_le. lia.
Qed.

Lemma scaled_le_mono (m m' e : Z) :
  (m <= m')%Z -> scaled m e <= scaled m' e.
Proof.
  intros H. unfold scaled. apply IZR_le in H.
  pose proof (pow2_pos e). nra.
Qed.

Lemma scaled_le_inv (m m' e : Z) :
  scaled m e <= scaled m' e -> (m <= m')%Z.
Proof.
  unfold scaled. intros H. apply le_IZR.
  pose proof (pow2_pos e). nra.
Qed.

(** Dropping low bits never increases the value. *)
Lemma scaled_div_le (m e k : Z) :
  (0 <= m)%Z -> (0 <= k)%Z -> scaled (m / 2 ^ k) (e + k) <= scaled m e.
Proof.
  intros Hm Hk. rewrite <- scaled_shift by exact Hk.
  apply scaled_le_mono.
  assert (0 < 2 ^ k)%Z by (apply Z.pow_pos_nonneg; lia).
  pose proof (Z.mul_div_le m (2 ^ k) ltac:(lia)). lia.
Qed.

Lemma round_below_bound (s : bool) (M : positive) (E : Z)
    (mB : positive) (eB : Z) :
  SpecFloat.bounded prec emax mB eB = true ->
  (E <= 971)%Z ->
  scaled (Z.pos M) E <= scaled (Z.pos mB) eB ->
  match binary_round_aux prec emax s (Z.pos M) E loc_Exact with
  | S754_zero s' => s' = s
  | S754_finite s' m e =>
      s' = s /\ scaled (Z.pos m) e <= scaled (Z.pos mB) eB
  | S754_infinity _ | S754_nan => False
  end.
Proof.
  intros HB HE Hle.
  destruct (bounded_inv mB eB HB) as [HcB HbB].
  unfold binary_round_aux.
  destruct (shr_fexp prec emax (Z.pos M) E loc_Exact) as [mrs1 e1] eqn:H1.
  unfold shr_fexp in H1. cbn [shr_record_of_loc Zdigits2] in H1.
  rewrite fexp_eq in H1.
  apply shr_shifted in H1; [| lia].
  set (n1 := (Z.max (Z.pos (digits2_pos M) + E - 53) (-1074) - E)%Z) in H1.
  destruct H1 as (He1 & Hm1 & Hbits1).
  pose proof (round_nearest_even_bounds mrs1) as Hrne. cbv zeta in Hrne.
  set (m1 := round_nearest_even (shr_m mrs1) (loc_of_shr_record mrs1)) in *.
  assert (Hpow1 : (0 < 2 ^ Z.max n1 0)%Z) by (apply Z.pow_pos_nonneg; lia).
  assert (Hq1 : (0 <= shr_m mrs1)%Z) by (rewrite Hm1; apply Z.div_pos; lia).
  assert (Hm1pos : (0 <= m1)%Z) by (destruct Hrne as [-> | [-> _]]; lia).
  (* the first shift and rounding stay below the bound *)
  assert (HA : scaled m1 e1 <= scaled (Z.pos mB) eB).
  { destruct Hrne as [Hrne | [Hrne Hbits]].
    - rewrite Hrne, Hm1, He1.
      eapply Rle_trans; [apply scaled_div_le; lia | exact Hle].
    - specialize (Hbits1 Hbits).
      assert (Hn1 : (0 < n1)%Z).
      { destruct (Z.lt_ge_cases 0 n1) as [Hpos | Hneg]; [exact Hpos |].
        rewrite Z.max_r, Z.pow_0_r, Z.mod_1_r in Hbits1 by lia.
        congruence. }
      rewrite Z.max_l in * by lia.
      destruct (Z.le_gt_cases e1 eB) as [Hge | Hlt].
      + replace eB with (e1 + (eB - e1))%Z by lia.
        rewrite <- scaled_shift by lia.
        apply scaled_le_mono.
        set (K := (Z.pos mB * 2 ^ (eB - e1))%Z).
        assert (HMK : (Z.pos M <= K * 2 ^ n1)%Z).
        { apply (scaled_le_inv _ _ E).
          eapply Rle_trans; [exact Hle |].
          rewrite scaled_shift by lia. unfold K.
          rewrite scaled_shift by lia.
          replace (eB - e1 + (E + n1))%Z with eB by lia.
          replace (E + n1 + (eB - e1))%Z with eB by lia.
          apply Rle_refl. }
        pose proof (Z.div_mod (Z.pos M) (2 ^ n1) ltac:(lia)) as Hdm.
        pose proof (Z.mod_pos_bound (Z.pos M) (2 ^ n1) Hpow1) as Hb.
        rewrite Hrne, Hm1. nia.
      + exfalso.
        assert (He1' : e1 = (Z.pos (digits2_pos M) + E - 53)%Z) by lia.
        destruct (scaled_digits M E) as [Hlo _].
        pose proof (bounded_lt_pow2 mB eB (Z.pos (digits2_pos M) - 1 + E) HB
                      ltac:(lia)).
        lra. }
  destruct (shr_fexp prec emax m1 e1 loc_Exact) as [mrs2 e2] eqn:H2.
  unfold shr_fexp in H2. cbn [shr_record_of_loc] in H2.
  rewrite fexp_eq in H2.
  apply shr_shifted in H2; [| exact Hm1pos].
  set (n2 := (Z.max (Zdigits2 m1 + e1 - 53) (-1074) - e1)%Z) in H2.
  destruct H2 as (He2 & Hm2 & _).
  assert (HV : scaled (shr_m mrs2) e2 <= scaled (Z.pos mB) eB).
  { rewrite Hm2, He2.
    eapply Rle_trans; [apply scaled_div_le; lia | exact HA]. }
  destruct (shr_m mrs2) as [| m2 | m2] eqn:Hs2.
  - reflexivity.
  - destruct (e2 <=? emax - prec)%Z eqn:Hov; [split; [reflexivity | exact HV] |].
    apply Z.leb_gt in Hov. change (emax - prec)%Z with 971%Z in Hov.
    destruct (Z.max_spec n2 0) as [[Hn2 Hmax2] | [Hn2 Hmax2]];
      rewrite Hmax2 in He2, Hm2.
    + (* no second shift *)
      destruct (Z.max_spec n1 0) as [[Hn1 Hmax1] | [Hn1 Hmax1]];
        rewrite Hmax1 in He1.
      * lia.
      * assert (He1' : e1 = (Z.pos (digits2_pos M) + E - 53)%Z) by lia.
        destruct (scaled_digits M E) as [Hlo _].
        pose proof (bounded_lt_pow2 mB eB (Z.pos (digits2_pos M) - 1 + E) HB
                      ltac:(lia)).
        lra.
    + (* a second shift *)
      destruct m1 as [| p1 | p1] eqn:Hp1.
      * rewrite Z.div_0_l in Hm2; [discriminate |].
        apply Z.pow_nonzero; lia.
      * cbn [Zdigits2] in n2.
        assert (He2' : e2 = (Z.pos (digits2_pos p1) + e1 - 53)%Z) by lia.
        destruct (scaled_digits p1 e1) as [Hlo _].
        pose proof (bounded_lt_pow2 mB eB (Z.pos (digits2_pos p1) - 1 + e1)
                      HB ltac:(lia)).
        lra.
      * lia.
  - assert (0 <= m1 / 2 ^ Z.max n2 0)%Z by (apply Z.div_pos; [lia |];
      apply Z.pow_pos_nonneg; lia).
    lia.
Qed.


(** ** Magnitudes of floats *)

Lemma scaled_double (m e : Z) : scaled m (e + 1) = 2 * scaled m e.
Proof. unfold scaled. rewrite pow2_succ. ring. Qed.

Lemma scaled_pos (m : positive) (e : Z) : 0 < scaled (Z.pos m) e.
Proof.
  unfold scaled. apply Rmult_lt_0_compat; [| apply pow2_pos].
  apply IZR_lt. lia.
Qed.

Lemma scaled_mul (m1 e1 m2 e2 : Z) :
  scaled (m1 * m2) (e1 + e2) = scaled m1 e1 * scaled m2 e2.
Proof. unfold scaled. rewrite mult_IZR, pow2_add. ring. Qed.

Lemma leb_at_most (v : spec_float) (mB : positive) (eB : Z) :
  valid_binary v = true ->
  SpecFloat.bounded prec emax mB eB = true ->
  SFleb (SFabs v) (S754_finite false mB eB) = true ->
  at_most v mB eB.
Proof.
  intros Hv HB Hleb. destruct v as [s | s | | s m e]; cbn in *;
    try exact I; try discriminate.
  destruct (bounded_inv m e Hv) as [Hc _].
  destruct (bounded_inv mB eB HB) as [HcB _].
  unfold SFleb in Hleb. cbn in Hleb.
  destruct (Z.compare_spec e eB) as [Heq | Hlt | Hgt]; [| | discriminate].
  - subst e. apply scaled_le_mono.
    rewrite Pos.compare_cont_spec in Hleb. cbn in Hleb.
    destruct (Pos.compare_spec m mB); [lia | lia | discriminate].
  - destruct (scaled_digits m e) as [_ Hhi].
    destruct (scaled_digits mB eB) as [Hlo _].
    assert (powerRZ 2 (Z.pos (digits2_pos m) + e)
            <= powerRZ 2 (Z.pos (digits2_pos mB) - 1 + eB))
      by (apply pow2_le; lia).
    lra.
Qed.

Lemma at_most_leb (v : spec_float) (mB : positive) (eB : Z) :
  valid_binary v = true ->
  SpecFloat.bounded prec emax mB eB = true ->
  at_most v mB eB ->
  SFleb (SFabs v) (S754_finite false mB eB) = true.
Proof.
  intros Hv HB Hle. destruct v as [s | s | | s m e]; cbn in *;
    try reflexivity; try contradiction.
  destruct (bounded_inv m e Hv) as [Hc _].
  destruct (bounded_inv mB eB HB) as [HcB _].
  unfold SFleb. cbn.
  destruct (Z.compare_spec e eB) as [Heq | Hlt | Hgt]; [| reflexivity |].
  - subst e. apply scaled_le_inv in Hle.
    rewrite Pos.compare_cont_spec. cbn.
    destruct (Pos.compare_spec m mB); [reflexivity | reflexivity | lia].
  - exfalso.
    destruct (scaled_digits m e) as [Hlo _].
    pose proof (bounded_lt_pow2 mB eB (Z.pos (digits2_pos m) - 1 + e) HB
                  ltac:(lia)).
    lra.
Qed.

Lemma iter_xO (m d : positive) :
  Z.pos (Pos.iter xO m d) = (Z.pos m * 2 ^ Z.pos d)%Z.
Proof.
  induction d as [| d IH] using Pos.peano_ind.
  - cbn. lia.
  - rewrite Pos.iter_succ, Pos2Z.inj_succ, Z.pow_succ_r by lia.
    rewrite Pos2Z.inj_xO, IH. lia.
Qed.

Lemma shl_align_value (m : positive) (e e' : Z) :
  let '(m', e'') := shl_align m e e' in
  (e'' <= e)%Z /\ scaled (Z.pos m') e'' = scaled (Z.pos m) e.
Proof.
  unfold shl_align. destruct (e' - e)%Z as [| d | d] eqn:Hd.
  - split; [lia | reflexivity].
  - split; [lia | reflexivity].
  - split; [lia |]. rewrite iter_xO.
    rewrite scaled_shift by lia. f_equal. lia.
Qed.

Lemma binary_round_below (s : bool) (m : positive) (e : Z)
    (mB : positive) (eB : Z) :
  SpecFloat.bounded prec emax mB eB = true ->
  (e <= 971)%Z ->
  scaled (Z.pos m) e <= scaled (Z.pos mB) eB ->
  at_most (binary_round prec emax s m e) mB eB.
Proof.
  intros HB He Hle. unfold binary_round.
  pose proof (shl_align_value m e
                (fexp prec emax (Z.pos (digits2_pos m) + e))) as Hal.
  destruct (shl_align m e _) as [mz ez]. destruct Hal as [Hez Hval].
  pose proof (round_below_bound s mz ez mB eB HB ltac:(lia)
                ltac:(rewrite Hval; exact Hle)) as Hr.
  destruct (binary_round_aux prec emax s (Z.pos mz) ez loc_Exact);
    cbn; tauto.
Qed.

(** The difference of two floats of magnitude at most [B] has magnitude at
    most [2 B]. *)
Lemma sub_at_most (u v : spec_float) (mB : positive) (eB : Z) :
  valid_binary u = true -> valid_binary v = true ->
  SpecFloat.bounded prec emax mB (eB + 1) = true ->
  at_most u mB eB -> at_most v mB eB ->
  at_most (SF64sub u v) mB (eB + 1).
Proof.
  intros Hu Hv HB Hau Hav.
  destruct u as [su | su | | su mu eu], v as [sv | sv | | sv mv ev];
    cbn [at_most] in Hau, Hav; try contradiction.
  - destruct su, sv; exact I.
  - cbn. rewrite scaled_double. pose proof (scaled_pos mB eB). lra.
  - cbn. rewrite scaled_double. pose proof (scaled_pos mB eB). lra.
  - unfold SF64sub, SFsub.
    destruct (bounded_inv mu eu Hu) as [_ Heu].
    destruct (bounded_inv mv ev Hv) as [_ Hev].
    set (ez := Z.min eu ev).
    pose proof (shl_align_value mu eu ez) as Hal1.
    pose proof (shl_align_value mv ev ez) as Hal2.
    assert (He1 : snd (shl_align mu eu ez) = ez).
    { unfold shl_align. destruct (ez - eu)%Z eqn:Hd; cbn; lia. }
    assert (He2 : snd (shl_align mv ev ez) = ez).
    { unfold shl_align. destruct (ez - ev)%Z eqn:Hd; cbn; lia. }
    destruct (shl_align mu eu ez) as [mu' eu'].
    destruct (shl_align mv ev ez) as [mv' ev'].
    cbn [fst snd] in *. subst eu' ev'.
    destruct Hal1 as [_ Hval1]. destruct Hal2 as [_ Hval2].
    assert (Hsum : forall m : positive,
               (Z.pos m <= Z.pos mu' + Z.pos mv')%Z ->
               scaled (Z.pos m) ez <= scaled (Z.pos mB) (eB + 1)).
    { intros m Hm. apply (scaled_le_mono _ _ ez) in Hm.
      unfold scaled in Hm. rewrite plus_IZR in Hm.
      unfold scaled in Hval1, Hval2, Hau, Hav |- *.
      rewrite pow2_succ. lra. }
    unfold binary_normalize.
    destruct (cond_Zopp su (Z.pos mu') - cond_Zopp sv (Z.pos mv'))%Z
      as [| m | m] eqn:HM.
    + exact I.
    + apply binary_round_below; [exact HB | lia |].
      apply Hsum. destruct su, sv; unfold cond_Zopp in HM; lia.
    + apply binary_round_below; [exact HB | lia |].
      apply Hsum. destruct su, sv; unfold cond_Zopp in HM; lia.
Qed.

(** Scaling a float of magnitude at most [B] by a positive float [r] with a
    non-positive exponent. *)
Lemma mul_at_most (u : spec_float) (mB : positive) (eB : Z)
    (mr : positive) (er : Z) (mC : positive) (eC : Z) :
  valid_binary u = true ->
  SpecFloat.bounded prec emax mC eC = true ->
  (er <= 0)%Z ->
  scaled (Z.pos mB) eB * scaled (Z.pos mr) er <= scaled (Z.pos mC) eC ->
  at_most u mB eB ->
  at_most (SF64mul u (S754_finite false mr er)) mC eC.
Proof.
  intros Hu HC Her Hprod Hau.
  destruct u as [su | su | | su mu eu]; cbn [at_most] in Hau;
    try contradiction.
  - exact I.
  - unfold SF64mul, SFmul.
    destruct (bounded_inv mu eu Hu) as [_ Heu].
    pose proof (round_below_bound (xorb su false) (mu * mr) (eu + er) mC eC
                  HC ltac:(lia)) as Hr.
    assert (Hle : scaled (Z.pos (mu * mr)) (eu + er) <= scaled (Z.pos mC) eC).
    { rewrite Pos2Z.inj_mul, scaled_mul.
      pose proof (scaled_pos mr er). pose proof (scaled_pos mu eu). nra. }
    specialize (Hr Hle).
    destruct (binary_round_aux prec emax (xorb su false)
                (Z.pos (mu * mr)) (eu + er) loc_Exact) as [s' | s' | | s' m e];
      cbn [at_most]; tauto.
Qed.


(** ** The angle computation *)

Lemma Prim2SF_pi : Prim2SF Py.pi = S754_finite false 7074237752028440 (-51).
Proof. vm_compute. reflexivity. Qed.

Lemma Prim2SF_radToDeg :
  Prim2SF Py.radToDeg = S754_finite false 8063664102031864 (-47).
Proof. vm_compute. reflexivity. Qed.

Lemma Prim2SF_360 :
  Prim2SF 360%float = S754_finite false 6333186975989760 (-44).
Proof. vm_compute. reflexivity. Qed.

Lemma Prim2SF_0 : Prim2SF 0%float = S754_zero false.
Proof. vm_compute. reflexivity. Qed.

(** [2 * math.pi * radToDeg <= 360] in exact arithmetic. *)
Lemma two_pi_degrees :
  scaled 7074237752028440 (-51 + 1) * scaled 8063664102031864 (-47)
  <= scaled 6333186975989760 (-44).
Proof.
  rewrite <- scaled_mul.
  replace (-44)%Z with (-51 + 1 + -47 + 53)%Z by reflexivity.
  rewrite <- (scaled_shift 6333186975989760 (-51 + 1 + -47) 53) by lia.
  apply scaled_le_mono. apply Z.leb_le. vm_compute. reflexivity.
Qed.

(** Two angles within [-pi, pi] differ by at most 360 degrees after the
    roundings of the subtraction and of the conversion. *)
Lemma abs_degrees_sub_le_360 (a1 a2 : float) :
  (abs a1 <=? Py.pi)%float = true ->
  (abs a2 <=? Py.pi)%float = true ->
  (0 <=? abs (Py.degrees (a1 - a2)))%float = true
  /\ (abs (Py.degrees (a1 - a2)) <=? 360)%float = true.
Proof.
  intros H1 H2.
  rewrite leb_spec, abs_spec, Prim2SF_pi in H1, H2.
  apply leb_at_most in H1; [| apply Prim2SF_valid | reflexivity].
  apply leb_at_most in H2; [| apply Prim2SF_valid | reflexivity].
  pose proof (sub_at_most _ _ 7074237752028440 (-51) (Prim2SF_valid a1)
                (Prim2SF_valid a2) eq_refl H1 H2) as HD.
  rewrite <- sub_spec in HD.
  pose proof (mul_at_most _ 7074237752028440 (-51 + 1)
                8063664102031864 (-47) 6333186975989760
                (-44) (Prim2SF_valid (a1 - a2)) eq_refl ltac:(lia)
                two_pi_degrees HD) as HP.
  rewrite <- Prim2SF_radToDeg, <- mul_spec in HP.
  unfold Py.degrees. split.
  - rewrite leb_spec, abs_spec, Prim2SF_0.
    destruct (Prim2SF (_ * _)); cbn in HP |- *;
      solve [contradiction | reflexivity].
  - rewrite leb_spec, abs_spec, Prim2SF_360.
    apply at_most_leb; [apply Prim2SF_valid | reflexivity | exact HP].
Qed.

End Rounding.

(** * Scoring *)

Section Scoring.
Context {L : Libm}.
Import Rules.

Lemma calculate_distance_euclidean (x1 y1 x2 y2 : float) :
  calculate_distance x1 y1 x2 y2 = Ok (euclidean (x1, y1) (x2, y2)).
Proof.
  unfold calculate_distance, Py.math_sqrt.
  rewrite FloatFacts.sum_of_squares_not_lt_0. reflexivity.
Qed.

Lemma sitting_confidence_sum (row : JointFrame) (prev : option JointFrame) :
  sitting_confidence row prev = Ok (sitting_sum row prev).
Proof.
  unfold sitting_confidence, calculate_velocity, sitting_sum.
  destruct prev as [p |]; cbn [get_joint_coordinates];
    rewrite !calculate_distance_euclidean; cbn [bind];
    unfold low_movement, legs_bent, torso_upright, strictly_between, pt,
      midpoint, calculate_centre_hip, py_lt, to_float, weight;
    cbn [get_joint_coordinates fst snd].
  - change (Py.float_of_Z 50) with 50%float.
    destruct (_ <? 50)%float; destruct (_ && _); destruct (_ && _);
      reflexivity.
  - destruct (_ && _); destruct (_ && _); reflexivity.
Qed.

Lemma walking_confidence_sum (row : JointFrame) (prev : option JointFrame) :
  walking_confidence row prev = Ok (walking_sum row prev).
Proof.
  unfold walking_confidence, walking_sum.
  rewrite calculate_distance_euclidean; cbn [bind].
  unfold horizontal_movement, feet_apart, strictly_between, pt, weight.
  cbn [get_joint_coordinates].
  destruct prev as [p |]; [destruct (_ && _) |]; destruct (_ && _);
    reflexivity.
Qed.

Lemma climbing_confidence_sum (row : JointFrame) (prev : option JointFrame) :
  climbing_confidence row prev = Ok (climbing_sum row).
Proof.
  unfold climbing_confidence, climbing_sum.
  rewrite !calculate_distance_euclidean; cbn [bind].
  unfold arm_extended, hands_elevated, feet_hanging, pt, weight.
  cbn [get_joint_coordinates].
  destruct (_ || _); destruct (_ && _); destruct (_ && _); reflexivity.
Qed.

Lemma analyze_sitting_eq (row : JointFrame) (prev : option JointFrame) :
  analyze_sitting row prev = Ok (Z.min (sitting_sum row prev) 100).
Proof.
  unfold analyze_sitting. rewrite sitting_confidence_sum. reflexivity.
Qed.

Lemma analyze_walking_eq (row : JointFrame) (prev : option JointFrame) :
  analyze_walking row prev = Ok (Z.min (walking_sum row prev) 100).
Proof.
  unfold analyze_walking. rewrite walking_confidence_sum. reflexivity.
Qed.

Lemma analyze_climbing_eq (row : JointFrame) (prev : option JointFrame) :
  analyze_climbing row prev = Ok (Z.min (climbing_sum row) 100).
Proof.
  unfold analyze_climbing. rewrite climbing_confidence_sum. reflexivity.
Qed.

End Scoring.

Section ScoringClaims.
Context {L : Libm}.
Import Rules.



Lemma sitting_sum_values (row : JointFrame) (prev : option JointFrame) :
  In (sitting_sum row prev) sitting_scores.
Proof.
  unfold sitting_sum, weight, sitting_scores.
  destruct (low_movement row prev), (legs_bent row), (torso_upright row);
    simpl; tauto.
Qed.

Lemma walking_sum_values (row : JointFrame) (prev : option JointFrame) :
  In (walking_sum row prev) walking_scores.
Proof.
  unfold walking_sum, weight, walking_scores.
  destruct (horizontal_movement row prev), (feet_apart row);
    simpl; tauto.
Qed.

Lemma climbing_sum_values (row : JointFrame) :
  In (climbing_sum row) climbing_scores.
Proof.
  unfold climbing_sum, weight, climbing_scores.
  destruct (arm_extended row), (hands_elevated row), (feet_hanging row);
    simpl; tauto.
Qed.

Lemma scores_le_100 (v : Z) :
  In v sitting_scores \/ In v walking_scores \/ In v climbing_scores ->
  Z.min v 100 = v.
Proof.
  unfold sitting_scores, walking_scores, climbing_scores. simpl.
  intros H. apply Z.min_l.
  repeat match goal with
         | H : _ \/ _ |- _ => destruct H
         | H : False |- _ => destruct H
         end; subst; lia.
Qed.

(** C10.  For every frame and optional previous frame, the local
    [confidence] at the [return] of each scoring function lies in a fixed
    finite set (sitting: 0, 30, 35, 65, 70, 100; walking: 0, 50, 100;
    climbing: 0, 30, 40, 60, 70, 100), so it never exceeds 100 and the
    function returns it unchanged by [min(confidence, 100)]. *)
Theorem raw_scores_finite (row : JointFrame) (prev : option JointFrame) :
  (exists s,
      sitting_confidence row prev = Ok s
      /\ In s sitting_scores /\ s <= 100
      /\ analyze_sitting row prev = Ok s)
  /\ (exists w,
         walking_confidence row prev = Ok w
         /\ In w walking_scores /\ w <= 100
         /\ analyze_walking row prev = Ok w)
  /\ (exists c,
         climbing_confidence row prev = Ok c
         /\ In c climbing_scores /\ c <= 100
         /\ analyze_climbing row prev = Ok c).
Proof.
  split; [| split].
  - exists (sitting_sum row prev).
    pose proof (sitting_sum_values row prev) as Hin.
    pose proof (scores_le_100 _ (or_introl Hin)) as Hmin.
    unfold analyze_sitting. rewrite sitting_confidence_sum. cbn [bind].
    rewrite Hmin. repeat split; auto. lia.
  - exists (walking_sum row prev).
    pose proof (walking_sum_values row prev) as Hin.
    pose proof (scores_le_100 _ (or_intror (or_introl Hin))) as Hmin.
    unfold analyze_walking. rewrite walking_confidence_sum. cbn [bind].
    rewrite Hmin. repeat split; auto. lia.
  - exists (climbing_sum row).
    pose proof (climbing_sum_values row) as Hin.
    pose proof (scores_le_100 _ (or_intror (or_intror Hin))) as Hmin.
    unfold analyze_climbing. rewrite climbing_confidence_sum. cbn [bind].
    rewrite Hmin. repeat split; auto. lia.
Qed.


End ScoringClaims.

(** * Frames and the output stream *)

Section Frames.
Context {L : Libm}.
Import Rules.

Lemma frame_result_classify (data : list JointFrame) (frame_idx : nat) :
  frame_result data frame_idx
  = (confidences <- analyze_frame data frame_idx ;;
     classify frame_idx confidences).
Proof. reflexivity. Qed.

Lemma raw_confidences_eq (row : JointFrame) (prev : option JointFrame) :
  raw_confidences row prev
  = Ok (raw_dict (sitting_sum row prev) (walking_sum row prev)
          (climbing_sum row)).
Proof.
  unfold raw_confidences.
  rewrite analyze_sitting_eq, analyze_walking_eq, analyze_climbing_eq.
  cbn [bind].
  rewrite (scores_le_100 (sitting_sum row prev)),
    (scores_le_100 (walking_sum row prev)),
    (scores_le_100 (climbing_sum row)); [reflexivity | | |].
  - right; right. apply climbing_sum_values.
  - right; left. apply walking_sum_values.
  - left. apply sitting_sum_values.
Qed.

Lemma analyze_frame_eq (data : list JointFrame) (i : nat) (row : JointFrame) :
  nth_error data i = Some row ->
  analyze_frame data i
  = normalize (raw_dict (sitting_sum row (previous data i))
                 (walking_sum row (previous data i)) (climbing_sum row)).
Proof.
  intros Hrow. unfold analyze_frame, iloc. rewrite Hrow. cbn [bind].
  destruct i as [| i]; cbn [Nat.ltb Nat.leb previous].
  - cbn [bind]. rewrite raw_confidences_eq. reflexivity.
  - replace (S i - 1)%nat with i by lia.
    assert (Hlt : (i < List.length data)%nat).
    { apply Nat.lt_succ_l. apply nth_error_Some. congruence. }
    destruct (nth_error data i) as [p |] eqn:Hp.
    + cbn [bind]. rewrite raw_confidences_eq. reflexivity.
    + apply nth_error_None in Hp. lia.
Qed.

(** Every frame is classified from one of finitely many raw triples. *)
Lemma frame_cases (data : list JointFrame) (i : nat) :
  (i < List.length data)%nat ->
  exists s w c,
    In s sitting_scores /\ In w walking_scores /\ In c climbing_scores
    /\ analyze_frame data i = normalize (raw_dict s w c).
Proof.
  intros Hi.
  destruct (nth_error data i) as [row |] eqn:Hrow;
    [| apply nth_error_None in Hrow; lia].
  exists (sitting_sum row (previous data i)),
    (walking_sum row (previous data i)), (climbing_sum row).
  split; [apply sitting_sum_values |].
  split; [apply walking_sum_values |].
  split; [apply climbing_sum_values |].
  apply analyze_frame_eq, Hrow.
Qed.

Lemma analyze_frame_out_of_range (data : list JointFrame) (i : nat) :
  (List.length data <= i)%nat -> analyze_frame data i = Raise IndexError.
Proof.
  intros Hi. unfold analyze_frame, iloc.
  apply nth_error_None in Hi. rewrite Hi. reflexivity.
Qed.

End Frames.

(** Case analysis over the finitely many raw triples. *)
Ltac split_scores :=
  unfold sitting_scores, walking_scores, climbing_scores in *;
  repeat match goal with
         | H : In _ (_ :: _) |- _ => destruct H as [H | H]; [subst |]
         | H : In _ [] |- _ => destruct H
         end.

Section Stream.
Context {L : Libm}.

Lemma normalize_classify_ok (i : nat) (s w c : Z) :
  In s sitting_scores -> In w walking_scores -> In c climbing_scores ->
  exists confidences r,
    normalize (raw_dict s w c) = Ok confidences
    /\ classify i confidences = Ok r.
Proof.
  intros Hs Hw Hc. split_scores;
    (eexists; eexists; split; [vm_compute; reflexivity | reflexivity]).
Qed.

Lemma frame_result_ok (data : list JointFrame) (i : nat) :
  (i < List.length data)%nat -> exists r, frame_result data i = Ok r.
Proof.
  intros Hi.
  destruct (frame_cases data i Hi) as (s & w & c & Hs & Hw & Hc & Hf).
  destruct (normalize_classify_ok i s w c Hs Hw Hc)
    as (confidences & r & Hn & Hr).
  exists r. rewrite frame_result_classify, Hf, Hn. exact Hr.
Qed.

Lemma frame_result_Frame (data : list JointFrame) (i : nat) (r : FrameResult) :
  frame_result data i = Ok r -> Frame r = Z.of_nat i + 1.
Proof.
  rewrite frame_result_classify.
  destruct (analyze_frame data i) as [confidences | e]; [| discriminate].
  cbn [bind]. unfold classify.
  destruct (majority confidences) as [[mb mc] | e]; [| discriminate].
  cbn [bind].
  destruct (dict_get confidences "sitting"); [| discriminate].
  destruct (dict_get confidences "walking"); [| discriminate].
  destruct (dict_get confidences "climbing"); [| discriminate].
  cbn [bind]. intros H. injection H as <-. reflexivity.
Qed.

Lemma analyze_loop_spec (data : list JointFrame) (indices : list nat) :
  (forall i, In i indices -> exists r, frame_result data i = Ok r) ->
  forall results,
  exists tail,
    analyze_loop data indices results = Ok (results ++ tail)
    /\ Forall2 (fun i r => frame_result data i = Ok r) indices tail.
Proof.
  induction indices as [| i rest IH]; intros Hok results.
  - exists []. rewrite app_nil_r. split; [reflexivity | constructor].
  - destruct (Hok i (or_introl eq_refl)) as [r Hr].
    destruct (IH (fun j Hj => Hok j (or_intror Hj)) (results ++ [r]))
      as (tail & Hloop & Hall).
    exists (r :: tail). cbn [analyze_loop]. rewrite Hr. cbn [bind].
    rewrite Hloop, <- app_assoc. split; [reflexivity |].
    constructor; assumption.
Qed.

Lemma Forall2_seq_nth {A : Type} (P : nat -> A -> Prop) (n start : nat)
    (l : list A) :
  Forall2 P (seq start n) l ->
  List.length l = n
  /\ forall i a, nth_error l i = Some a -> P (start + i)%nat a.
Proof.
  revert start l. induction n as [| n IH]; intros start l H.
  - inversion H; subst. split; [reflexivity |].
    intros i a Hi. destruct i; discriminate.
  - cbn [seq] in H. inversion H as [| x a0 xs l' Hhd Htl]; subst.
    apply IH in Htl. destruct Htl as [Hlen Hnth].
    split; [cbn [List.length]; congruence |].
    intros [| i] a Hi; cbn [nth_error] in Hi.
    + injection Hi as <-. rewrite Nat.add_0_r. exact Hhd.
    + replace (start + S i)%nat with (S start + i)%nat by lia.
      apply Hnth, Hi.
Qed.

(** What [analyze_all_frames] returns. *)
Lemma analyze_all_frames_spec (data : list JointFrame) :
  exists results,
    analyze_all_frames data = Ok results
    /\ List.length results = List.length data
    /\ forall i r, nth_error results i = Some r -> frame_result data i = Ok r.
Proof.
  destruct (analyze_loop_spec data (seq 0 (List.length data)))
    with (results := @nil FrameResult) as (tail & Hloop & Hall).
  { intros i Hi. apply in_seq in Hi. apply frame_result_ok. lia. }
  exists tail. split; [exact Hloop |].
  apply Forall2_seq_nth in Hall. exact Hall.
Qed.

(** A row of the output is the classification of the frame at its
    position. *)
Lemma output_row (data : list JointFrame) (results : list FrameResult)
    (i : nat) (r : FrameResult) :
  analyze_all_frames data = Ok results ->
  nth_error results i = Some r ->
  (i < List.length data)%nat /\ frame_result data i = Ok r.
Proof.
  intros Hall Hr.
  destruct (analyze_all_frames_spec data) as (results' & Hall' & Hlen & Hnth).
  rewrite Hall in Hall'. injection Hall' as <-.
  split; [| apply Hnth, Hr].
  rewrite <- Hlen. apply nth_error_Some. congruence.
Qed.

End Stream.

Section StreamClaims.
Context {L : Libm}.

(** C9.  For every input table, [analyze_all_frames] returns one record
    per input frame, in the input order (the record at position [i] is the
    classification of frame [i]) and numbered from 1 ([Frame = i + 1]); an
    empty table gives an empty output and no exception. *)
Theorem analyze_all_frames_stream (data : list JointFrame) :
  analyze_all_frames [] = Ok []
  /\ exists results,
      analyze_all_frames data = Ok results
      /\ List.length results = List.length data
      /\ forall i r,
          nth_error results i = Some r ->
          Frame r = Z.of_nat i + 1 /\ frame_result data i = Ok r.
Proof.
  split; [reflexivity |].
  destruct (analyze_all_frames_spec data) as (results & Hall & Hlen & Hnth).
  exists results. split; [exact Hall |]. split; [exact Hlen |].
  intros i r Hr. pose proof (Hnth i r Hr) as Hres.
  split; [eapply frame_result_Frame; eassumption | exact Hres].
Qed.

(** The label and confidence of a record, for each raw triple. *)
Lemma classify_argmax (i : nat) (s w c : Z) :
  In s sitting_scores -> In w walking_scores -> In c climbing_scores ->
  exists confidences r b,
    normalize (raw_dict s w c) = Ok confidences
    /\ classify i confidences = Ok r
    /\ (forall b', dict_get confidences (name b') = Ok (column b' r))
    /\ (forall b', py_le (column b' r) (column b r) = true)
    /\ Confidence r = column b r
    /\ Classified_Behavior r
       = (if py_lt (column b r) (PyInt 40) then "unknown" else name b).
Proof.
  intros Hs Hw Hc. split_scores;
    (eexists; eexists;
     first [exists sitting; split; [vm_compute; reflexivity |];
            split; [reflexivity |];
            split; [intros []; reflexivity |];
            split; [intros []; vm_compute; reflexivity |];
            split; vm_compute; reflexivity
           |exists walking; split; [vm_compute; reflexivity |];
            split; [reflexivity |];
            split; [intros []; reflexivity |];
            split; [intros []; vm_compute; reflexivity |];
            split; vm_compute; reflexivity
           |exists climbing; split; [vm_compute; reflexivity |];
            split; [reflexivity |];
            split; [intros []; reflexivity |];
            split; [intros []; vm_compute; reflexivity |];
            split; vm_compute; reflexivity]).
Qed.

(** C1.  For every frame the record's label is the name of a category of
    maximum normalised confidence, replaced by [unknown] exactly when that
    maximum is below 40, and the record's [Confidence] is that category's
    normalised confidence in both cases. *)
Theorem label_is_argmax (data : list JointFrame)
    (results : list FrameResult) (i : nat) (r : FrameResult) :
  analyze_all_frames data = Ok results ->
  nth_error results i = Some r ->
  exists confidences b,
    analyze_frame data i = Ok confidences
    /\ (forall b', dict_get confidences (name b') = Ok (column b' r))
    /\ (forall b', py_le (column b' r) (column b r) = true)
    /\ Confidence r = column b r
    /\ Classified_Behavior r
       = (if py_lt (column b r) (PyInt 40) then "unknown" else name b).
Proof.
  intros Hall Hr.
  destruct (output_row data results i r Hall Hr) as [Hi Hres].
  destruct (frame_cases data i Hi) as (s & w & c & Hs & Hw & Hc & Hf).
  destruct (classify_argmax i s w c Hs Hw Hc)
    as (confidences & r' & b & Hn & Hcl & Hcols & Hmax & Hconf & Hlab).
  rewrite frame_result_classify, Hf, Hn in Hres. cbn [bind] in Hres.
  rewrite Hcl in Hres. injection Hres as <-.
  exists confidences, b. rewrite Hf. auto.
Qed.

(** The selected item, for each raw triple. *)
Lemma majority_first_max (s w c : Z) :
  In s sitting_scores -> In w walking_scores -> In c climbing_scores ->
  exists confidences b mc,
    normalize (raw_dict s w c) = Ok confidences
    /\ majority confidences = Ok (name b, mc)
    /\ dict_get confidences (name b) = Ok mc
    /\ forall b',
        exists v,
          dict_get confidences (name b') = Ok v
          /\ py_le v mc = true
          /\ (py_eq v mc = true -> (rank b <= rank b')%nat).
Proof.
  intros Hs Hw Hc. split_scores;
    (eexists;
     first [exists sitting; eexists; split; [vm_compute; reflexivity |];
            split; [reflexivity |]; split; [reflexivity |];
            intros []; eexists; (split; [reflexivity |]);
            (split; [vm_compute; reflexivity |]);
            vm_compute; intros; first [discriminate | lia]
           |exists walking; eexists; split; [vm_compute; reflexivity |];
            split; [reflexivity |]; split; [reflexivity |];
            intros []; eexists; (split; [reflexivity |]);
            (split; [vm_compute; reflexivity |]);
            vm_compute; intros; first [discriminate | lia]
           |exists climbing; eexists; split; [vm_compute; reflexivity |];
            split; [reflexivity |]; split; [reflexivity |];
            intros []; eexists; (split; [reflexivity |]);
            (split; [vm_compute; reflexivity |]);
            vm_compute; intros; first [discriminate | lia]]).
Qed.

(** C5.  For every frame, the category selected by the majority step has
    the maximum normalised confidence, and whenever another category has
    an identical confidence the selected one comes first in the order
    sitting, walking, climbing. *)
Theorem tie_break_first_declared (data : list JointFrame) (i : nat)
    (confidences : dict pynum) (mb : string) (mc : pynum) :
  analyze_frame data i = Ok confidences ->
  majority confidences = Ok (mb, mc) ->
  exists b,
    mb = name b
    /\ dict_get confidences (name b) = Ok mc
    /\ forall b',
        exists v,
          dict_get confidences (name b') = Ok v
          /\ py_le v mc = true
          /\ (py_eq v mc = true -> (rank b <= rank b')%nat).
Proof.
  intros Hf Hm.
  assert (Hi : (i < List.length data)%nat).
  { destruct (Nat.lt_ge_cases i (List.length data)) as [Hlt | Hge];
      [exact Hlt |].
    rewrite (analyze_frame_out_of_range data i Hge) in Hf. discriminate. }
  destruct (frame_cases data i Hi) as (s & w & c & Hs & Hw & Hc & Hf').
  destruct (majority_first_max s w c Hs Hw Hc)
    as (confidences' & b & mc' & Hn & Hmaj & Hget & Hall).
  rewrite Hf', Hn in Hf. injection Hf as <-.
  rewrite Hmaj in Hm. injection Hm as <- <-.
  exists b. auto.
Qed.

End StreamClaims.

(** * Normalisation *)

Section Normalisation.
Context {L : Libm}.

Lemma normalize_sum (s w c : Z) :
  In s sitting_scores -> In w walking_scores -> In c climbing_scores ->
  (0 < s + w + c ->
   normalize (raw_dict s w c)
   = Ok [("sitting", share s (s + w + c));
         ("walking", share w (s + w + c));
         ("climbing", share c (s + w + c))]
   /\ near_100 (py_sum3 (share s (s + w + c)) (share w (s + w + c))
                  (share c (s + w + c)))
   /\ exists q,
       exact_sum (share s (s + w + c)) (share w (s + w + c))
         (share c (s + w + c)) = Some q
       /\ (Qabs (q - 100) <= 1 # (2 ^ 46))%Q)
  /\ (s + w + c <= 0 -> normalize (raw_dict s w c) = Ok (raw_dict 0 0 0)).
Proof.
  intros Hs Hw Hc. split_scores;
    (split; intros Hpos;
     [ first
         [ exfalso; vm_compute in Hpos; discriminate
         | split; [vm_compute; reflexivity |];
           split;
           [ first [left; vm_compute; reflexivity
                   |right; left; vm_compute; reflexivity
                   |right; right; vm_compute; reflexivity]
           | eexists; split;
             [vm_compute; reflexivity | vm_compute; discriminate] ] ]
     | first
         [ reflexivity
         | exfalso; vm_compute in Hpos; apply Hpos; reflexivity ] ]).
Qed.

(** C2, amended.  For every frame: when some raw sub-rule fired (raw sum
    above 0) each confidence is the double [value / sum * 100] and the
    three sum to 100 up to rounding (their float sum is 100 or a double
    adjacent to it, their exact sum is within 2^-46 of 100); when none
    fired the three confidences stay the raw int 0 and nothing is
    divided. *)
Theorem normalized_sum_near_100 (data : list JointFrame) (i : nat)
    (row : JointFrame) :
  nth_error data i = Some row ->
  exists s w c,
    raw_confidences row (previous data i) = Ok (raw_dict s w c)
    /\ (0 < s + w + c ->
        analyze_frame data i
        = Ok [("sitting", share s (s + w + c));
              ("walking", share w (s + w + c));
              ("climbing", share c (s + w + c))]
        /\ near_100 (py_sum3 (share s (s + w + c)) (share w (s + w + c))
                       (share c (s + w + c)))
        /\ exists q,
            exact_sum (share s (s + w + c)) (share w (s + w + c))
              (share c (s + w + c)) = Some q
            /\ (Qabs (q - 100) <= 1 # (2 ^ 46))%Q)
    /\ (s + w + c <= 0 ->
        analyze_frame data i = Ok (raw_dict 0 0 0)).
Proof.
  intros Hrow.
  exists (Rules.sitting_sum row (previous data i)),
    (Rules.walking_sum row (previous data i)), (Rules.climbing_sum row).
  split; [apply raw_confidences_eq |].
  rewrite (analyze_frame_eq data i row Hrow).
  apply normalize_sum;
    [apply sitting_sum_values | apply walking_sum_values
    | apply climbing_sum_values].
Qed.

End Normalisation.

(** * Missing coordinates *)

Section MissingCoordinates.
Context {L : Libm}.
Import Rules FloatFacts.


Lemma math_atan2_nan (y x : float) :
  is_nan y = true \/ is_nan x = true -> math_atan2 y x = nan.
Proof.
  unfold math_atan2. intros [H | H]; rewrite H.
  - rewrite orb_true_r. reflexivity.
  - reflexivity.
Qed.

Lemma calculate_angle_nan (x1 y1 x2 y2 x3 y3 : float) :
  any_nan [x1; y1; x2; y2; x3; y3] = true ->
  is_nan (calculate_angle (x1, y1) (x2, y2) (x3, y3)) = true.
Proof.
  unfold any_nan, calculate_angle, Py.degrees. cbn [existsb]. intros H.
  apply abs_nan, mul_nan_l.
  repeat (apply orb_true_iff in H; destruct H as [H | H]);
    try discriminate.
  - apply sub_nan_r. rewrite math_atan2_nan; [reflexivity |].
    right. apply sub_nan_l, H.
  - apply sub_nan_r. rewrite math_atan2_nan; [reflexivity |].
    left. apply sub_nan_l, H.
  - apply sub_nan_l. rewrite math_atan2_nan; [reflexivity |].
    right. apply sub_nan_r, H.
  - apply sub_nan_l. rewrite math_atan2_nan; [reflexivity |].
    left. apply sub_nan_r, H.
  - apply sub_nan_l. rewrite math_atan2_nan; [reflexivity |].
    right. apply sub_nan_l, H.
  - apply sub_nan_l. rewrite math_atan2_nan; [reflexivity |].
    left. apply sub_nan_l, H.
Qed.










End MissingCoordinates.

Section MissingCoordinatesClaims.
Context {L : Libm}.
Import Rules FloatFacts.




End MissingCoordinatesClaims.

(** * The angle helper *)

Section Angle.
Context {L : Libm}.
Import FloatFacts.

(** [math.atan2] is nan on a nan argument and within [-pi, pi] otherwise. *)
Lemma math_atan2_range (y x : float) :
math_atan2 y x = nan
\/ (abs (math_atan2 y x) <=? Py.pi)%float = true.
Proof.
unfold math_atan2.
destruct (is_nan x || is_nan y) eqn:Hnan; [left; reflexivity | right].
apply orb_false_iff in Hnan. destruct Hnan as [Hx Hy].
unfold Py.copysign.
destruct (is_infinity y).
- destruct (is_infinity x); [destruct (negb (get_sign x)) |];
    destruct (get_sign y); vm_compute; reflexivity.
- destruct (is_infinity x || (y =? 0)%float).
  + destruct (negb (get_sign x)); destruct (get_sign y);
      vm_compute; reflexivity.
  + apply libm_atan2_range; assumption.
Qed.

Lemma calculate_angle_eq (x1 y1 x2 y2 x3 y3 : float) :
calculate_angle (x1, y1) (x2, y2) (x3, y3)
= abs (Py.degrees (math_atan2 (y3 - y2) (x3 - x2)
                   - math_atan2 (y1 - y2) (x1 - x2))%float).
Proof. reflexivity. Qed.

Lemma calculate_angle_bounds (x1 y1 x2 y2 x3 y3 : float) :
is_nan (calculate_angle (x1, y1) (x2, y2) (x3, y3)) = true
\/ ((0 <=? calculate_angle (x1, y1) (x2, y2) (x3, y3))%float = true
    /\ (calculate_angle (x1, y1) (x2, y2) (x3, y3) <=? 360)%float = true).
Proof.
rewrite calculate_angle_eq.
destruct (math_atan2_range (y3 - y2) (x3 - x2)) as [H3 | H3].
{ left. rewrite H3. apply abs_nan, mul_nan_l, sub_nan_l. reflexivity. }
destruct (math_atan2_range (y1 - y2) (x1 - x2)) as [H1 | H1].
{ left. rewrite H1. apply abs_nan, mul_nan_l, sub_nan_r. reflexivity. }
right. apply Rounding.abs_degrees_sub_le_360; assumption.
Qed.

(** C8, amended.  For every three points the helper returns the absolute
  value of the difference of the two [atan2] values (ray p2->p3 minus ray
  p2->p1) converted to degrees.  The result is nan when a coordinate is
  nan; when it is not nan it is non-negative and at most 360, and 360.0
  itself is returned (both rays on the negative x axis, p1 offset by a
  negative zero).  It is not a canonical interior angle: that same result
  exceeds 180. *)
Theorem calculate_angle_range (x1 y1 x2 y2 x3 y3 : float) :
calculate_angle (x1, y1) (x2, y2) (x3, y3)
= abs (Py.degrees (math_atan2 (y3 - y2) (x3 - x2)
                   - math_atan2 (y1 - y2) (x1 - x2))%float)
/\ (is_nan (calculate_angle (x1, y1) (x2, y2) (x3, y3)) = true
    \/ ((0 <=? calculate_angle (x1, y1) (x2, y2) (x3, y3))%float = true
        /\ (calculate_angle (x1, y1) (x2, y2) (x3, y3) <=? 360)%float
           = true))
/\ (any_nan [x1; y1; x2; y2; x3; y3] = true ->
    is_nan (calculate_angle (x1, y1) (x2, y2) (x3, y3)) = true)
/\ calculate_angle (-1, -0)%float (0, 0)%float (-1, 0)%float = 360%float
/\ (180 <? calculate_angle (-1, -0)%float (0, 0)%float (-1, 0)%float)%float
   = true.
Proof.
split; [apply calculate_angle_eq |].
split; [apply calculate_angle_bounds |].
split; [apply calculate_angle_nan |].
split; vm_compute; reflexivity.
Qed.

(** With a libm that returns -pi/2 below the origin, as C99 Annex F has it,
  a right angle read the long way round is 270 degrees. *)
Remark calculate_angle_three_quarters :
libm_atan2 (-1) 0 = (- (0.5 * Py.pi))%float ->
calculate_angle (0, -1)%float (0, 0)%float (-1, 0)%float = 270%float.
Proof.
intros H. rewrite calculate_angle_eq.
replace (math_atan2 (-1 - 0) (0 - 0)) with (- (0.5 * Py.pi))%float
  by (symmetry; exact H).
vm_compute. reflexivity.
Qed.

End Angle.

(** * Worked examples *)

Lemma two_frames_output (L : Libm) :
  analyze_all_frames two_frames = Ok [hanging_record; resting_record].
Proof. vm_compute. reflexivity. Qed.

Lemma label_is_argmax_witness :
  (forall L : Libm,
      analyze_all_frames two_frames = Ok [hanging_record; resting_record])
  /\ forall L : Libm,
      exists confidences b,
        analyze_frame two_frames 1 = Ok confidences
        /\ (forall b',
               dict_get confidences (name b') = Ok (column b' resting_record))
        /\ (forall b',
               py_le (column b' resting_record) (column b resting_record)
               = true)
        /\ Confidence resting_record = column b resting_record
        /\ Classified_Behavior resting_record
           = (if py_lt (column b resting_record) (PyInt 40) then "unknown"
              else name b).
Proof.
  split; [exact two_frames_output |].
  intros L.
  exact (label_is_argmax two_frames [hanging_record; resting_record] 1%nat
           resting_record (two_frames_output L) eq_refl).
Defined.

Lemma tie_break_first_declared_witness :
  (forall L : Libm,
      analyze_frame two_frames 1
      = Ok [("sitting", PyFloat 50); ("walking", PyFloat 0);
            ("climbing", PyFloat 50)])
  /\ majority [("sitting", PyFloat 50); ("walking", PyFloat 0);
               ("climbing", PyFloat 50)] = Ok ("sitting", PyFloat 50)
  /\ forall L : Libm,
      exists b,
        "sitting" = name b
        /\ dict_get [("sitting", PyFloat 50); ("walking", PyFloat 0);
                     ("climbing", PyFloat 50)] (name b) = Ok (PyFloat 50)
        /\ forall b',
            exists v,
              dict_get [("sitting", PyFloat 50); ("walking", PyFloat 0);
                        ("climbing", PyFloat 50)] (name b') = Ok v
              /\ py_le v (PyFloat 50) = true
              /\ (py_eq v (PyFloat 50) = true -> (rank b <= rank b')%nat).
Proof.
  assert (H : forall L : Libm,
             analyze_frame two_frames 1
             = Ok [("sitting", PyFloat 50); ("walking", PyFloat 0);
                   ("climbing", PyFloat 50)])
    by (intros L; vm_compute; reflexivity).
  split; [exact H |]. split; [reflexivity |].
  intros L.
  exact (tie_break_first_declared two_frames 1%nat _ "sitting" (PyFloat 50)
           (H L) eq_refl).
Defined.

Lemma normalized_sum_near_100_witness :
  nth_error two_frames 0 = Some hanging_frame
  /\ forall L : Libm,
      exists s w c,
        raw_confidences hanging_frame (previous two_frames 0)
        = Ok (raw_dict s w c)
        /\ (0 < s + w + c ->
            analyze_frame two_frames 0
            = Ok [("sitting", share s (s + w + c));
                  ("walking", share w (s + w + c));
                  ("climbing", share c (s + w + c))]
            /\ near_100 (py_sum3 (share s (s + w + c)) (share w (s + w + c))
                           (share c (s + w + c)))
            /\ exists q,
                exact_sum (share s (s + w + c)) (share w (s + w + c))
                  (share c (s + w + c)) = Some q
                /\ (Qabs (q - 100) <= 1 # (2 ^ 46))%Q)
        /\ (s + w + c <= 0 ->
            analyze_frame two_frames 0 = Ok (raw_dict 0 0 0)).
Proof.
  split; [reflexivity |].
  intros L.
  exact (normalized_sum_near_100 two_frames 0%nat hanging_frame eq_refl).
Defined.

(** C2 as stated fails on [hanging_frame]: its raw scores 0, 50 and 100
    have a positive sum, and the three normalised confidences add up to the
    double just below 100, in float arithmetic and exactly. *)
Lemma normalized_sum_not_100 :
  (forall L : Libm,
      raw_confidences hanging_frame None = Ok (raw_dict 0 50 100)
      /\ analyze_frame [hanging_frame] 0
         = Ok [("sitting", PyFloat 0);
               ("walking", PyFloat 0x1.0aaaaaaaaaaaap+5);
               ("climbing", PyFloat 0x1.0aaaaaaaaaaaap+6)])
  /\ py_sum3 (PyFloat 0) (PyFloat 0x1.0aaaaaaaaaaaap+5)
       (PyFloat 0x1.0aaaaaaaaaaaap+6)
     = PyFloat 0x1.8ffffffffffffp+6
  /\ py_eq (PyFloat 0x1.8ffffffffffffp+6) (PyInt 100) = false
  /\ exists q,
      exact_sum (PyFloat 0) (PyFloat 0x1.0aaaaaaaaaaaap+5)
        (PyFloat 0x1.0aaaaaaaaaaaap+6) = Some q
      /\ (q == 100 - (1 # (2 ^ 46)))%Q
      /\ (q < 100)%Q.
Proof.
  split; [intros L; split; vm_compute; reflexivity |].
  split; [vm_compute; reflexivity |].
  split; [vm_compute; reflexivity |].
  eexists. split; [vm_compute; reflexivity |].
  split; vm_compute; reflexivity.
Qed.

(** A frame of nans after an ordinary one: no exception, all confidences
    the int 0, label [unknown]. *)
Example missing_frame_output (L : Libm) :
  analyze_all_frames [hanging_frame; missing_frame]
  = Ok [hanging_record;
        {| Frame := 2;
           Sitting := PyInt 0;
           Walking := PyInt 0;
           Climbing := PyInt 0;
           Classified_Behavior := "unknown";
           Confidence := PyInt 0 |}].
Proof. vm_compute. reflexivity. Qed.

(** C8 as stated fails in two ways: for the points (-1, -0.0), (0, 0) and
    (-1, 0) the helper returns 360.0, which is not below 360; for a nan
    coordinate it returns nan, which is neither non-negative nor below
    360. *)
Lemma calculate_angle_not_below_360 :
  (forall L : Libm,
      calculate_angle (-1, -0)%float (0, 0)%float (-1, 0)%float = 360%float)
  /\ (360 <? 360)%float = false
  /\ (forall L : Libm,
         calculate_angle (nan, 0)%float (0, 0)%float (1, 0)%float = nan)
  /\ (0 <=? nan)%float = false
  /\ (nan <? 360)%float = false.
Proof.
  split; [intros L; vm_compute; reflexivity |].
  split; [vm_compute; reflexivity |].
  split; [intros L; vm_compute; reflexivity |].
  split; vm_compute; reflexivity.
Qed.

(** With the miniature libm the right angle of the remark is 270. *)
Example quadrant_three_quarters :
  @calculate_angle quadrant_libm (0, -1)%float (0, 0)%float (-1, 0)%float
  = 270%float.
Proof. vm_compute. reflexivity. Qed.

(** * Exchanging the operands of binary64 operations *)

Module FloatSymmetry.

Lemma binary_round_aux_abs (s : bool) (m e : Z) (l : location) :
  SFabs (binary_round_aux prec emax s m e l)
  = binary_round_aux prec emax false m e l.
Proof.
  unfold binary_round_aux.
  destruct (shr_fexp prec emax m e l) as [mrs1 e1].
  destruct (shr_fexp prec emax _ e1 loc_Exact) as [mrs2 e2].
  destruct (shr_m mrs2); [reflexivity | | reflexivity].
  destruct (e2 <=? emax - prec); reflexivity.
Qed.

Lemma binary_round_abs (s : bool) (m : positive) (e : Z) :
  SFabs (binary_round prec emax s m e) = binary_round prec emax false m e.
Proof.
  unfold binary_round.
  destruct (shl_align m e _) as [mz ez]. apply binary_round_aux_abs.
Qed.

Lemma binary_normalize_abs_opp (M e : Z) :
  SFabs (binary_normalize prec emax (- M) e false)
  = SFabs (binary_normalize prec emax M e false).
Proof.
  destruct M as [| m | m]; cbn [Z.opp binary_normalize];
    rewrite ?binary_round_abs; reflexivity.
Qed.

(** [x - y] and [y - x] differ by their sign at most. *)
Lemma SFsub_abs_swap (x y : spec_float) :
  SFabs (SF64sub x y) = SFabs (SF64sub y x).
Proof.
  destruct x as [sx | sx | | sx mx ex], y as [sy | sy | | sy my ey];
    try reflexivity;
    try (destruct sx, sy; reflexivity).
  unfold SF64sub, SFsub. rewrite (Z.min_comm ey ex).
  rewrite <- binary_normalize_abs_opp. f_equal. f_equal. lia.
Qed.

(** A square depends on the magnitude only. *)
Lemma SFmul_square_abs (u v : spec_float) :
  SFabs u = SFabs v -> SF64mul u u = SF64mul v v.
Proof.
  destruct u as [su | su | | su mu eu], v as [sv | sv | | sv mv ev];
    cbn; intros H; try discriminate; try reflexivity.
  - destruct su, sv; reflexivity.
  - destruct su, sv; reflexivity.
  - injection H as -> ->. destruct su, sv; reflexivity.
Qed.

Lemma SFmul_abs_l (u v r : spec_float) :
  SFabs u = SFabs v -> SFabs (SF64mul u r) = SFabs (SF64mul v r).
Proof.
  destruct u as [su | su | | su mu eu], v as [sv | sv | | sv mv ev];
    cbn [SFabs]; intros H; try discriminate; try reflexivity;
    try (injection H as -> ->);
    destruct r as [sr | sr | | sr mr er]; cbn [SF64mul SFmul SFabs];
    rewrite ?binary_round_aux_abs; reflexivity.
Qed.

Lemma SFadd_comm (x y : spec_float) : SF64add x y = SF64add y x.
Proof.
  destruct x as [sx | sx | | sx mx ex], y as [sy | sy | | sy my ey];
    try reflexivity;
    try (destruct sx, sy; reflexivity).
  unfold SF64add, SFadd. rewrite (Z.min_comm ey ex). f_equal. lia.
Qed.

Lemma sq_sub_swap (a b : float) : Py.sq (a - b) = Py.sq (b - a).
Proof.
  apply Prim2SF_inj. unfold Py.sq. rewrite !mul_spec, !sub_spec.
  apply SFmul_square_abs, SFsub_abs_swap.
Qed.

Lemma add_comm (a b : float) : (a + b = b + a)%float.
Proof. apply Prim2SF_inj. rewrite !add_spec. apply SFadd_comm. Qed.

Lemma abs_mul_sub_swap (a b r : float) :
  abs ((a - b) * r) = abs ((b - a) * r).
Proof.
  apply Prim2SF_inj. rewrite !abs_spec, !mul_spec, !sub_spec.
  apply SFmul_abs_l, SFsub_abs_swap.
Qed.


(** A finite value: a zero or a finite number. *)
Lemma is_finite_Prim2SF (x : float) :
  is_finite x = true ->
  (exists s, Prim2SF x = S754_zero s)
  \/ exists s m e, Prim2SF x = S754_finite s m e.
Proof.
  unfold is_finite, Prim2SF. intros H.
  apply negb_true_iff, orb_false_iff in H. destruct H as [Hn Hi].
  rewrite Hn, Hi.
  destruct (is_zero x); [left; eexists; reflexivity |].
  destruct (Z.frexp x) as [r e].
  match goal with
  | |- context [shr_fexp ?p ?q ?m ?k ?l] =>
      destruct (shr_fexp p q m k l) as [mrs e']
  end.
  destruct (shr_m mrs);
    [left | right | left]; repeat eexists; reflexivity.
Qed.

Lemma SFsub_self (v : spec_float) :
  (exists s, v = S754_zero s) \/ (exists s m e, v = S754_finite s m e) ->
  SF64sub v v = S754_zero false.
Proof.
  intros [[s ->] | (s & m & e & ->)].
  - destruct s; reflexivity.
  - unfold SF64sub, SFsub. rewrite Z.sub_diag. reflexivity.
Qed.

(** [x - x] is +0 for a finite [x]. *)
Lemma sub_self (x : float) : is_finite x = true -> (x - x = 0)%float.
Proof.
  intros H. apply Prim2SF_inj. rewrite sub_spec.
  rewrite SFsub_self by (apply is_finite_Prim2SF, H). reflexivity.
Qed.

End FloatSymmetry.


(** * Signs of differences and quotients *)

Module FloatOrder.
Import Reals Lra Rounding FloatFacts.

Lemma SFcompare_negative (m1 : positive) (e1 : Z) (m2 : positive) (e2 : Z) :
  SFcompare (S754_finite true m1 e1) (S754_finite true m2 e2)
  = SFcompare (S754_finite false m2 e2) (S754_finite false m1 e1).
Proof.
  cbn. rewrite (Z.compare_antisym e1 e2).
  destruct (e1 ?= e2)%Z; cbn; [| reflexivity | reflexivity].
  rewrite !Pos.compare_cont_spec. cbn.
  rewrite (Pos.compare_antisym m1 m2).
  destruct (m1 ?= m2)%positive; reflexivity.
Qed.

(** The difference of a float and one not above it is not negative. *)
Lemma SFsub_not_negative (a b : spec_float) :
  valid_binary a = true -> valid_binary b = true ->
  SFleb b a = true ->
  not_negative (SF64sub a b).
Proof.
  intros Ha Hb Hle.
  destruct a as [sa | sa | | sa ma ea], b as [sb | sb | | sb mb eb];
    try discriminate;
    try (destruct sa, sb; first [discriminate | exact I | reflexivity]);
    try (destruct sa; first [discriminate | exact I | reflexivity]);
    try (destruct sb; first [discriminate | exact I | reflexivity]).
  unfold SF64sub, SFsub.
  set (ez := Z.min ea eb).
  pose proof (shl_align_value ma ea ez) as Hal1.
  pose proof (shl_align_value mb eb ez) as Hal2.
  assert (He1 : snd (shl_align ma ea ez) = ez).
  { unfold shl_align. destruct (ez - ea)%Z eqn:Hd; cbn; lia. }
  assert (He2 : snd (shl_align mb eb ez) = ez).
  { unfold shl_align. destruct (ez - eb)%Z eqn:Hd; cbn; lia. }
  destruct (shl_align ma ea ez) as [ma' ea'].
  destruct (shl_align mb eb ez) as [mb' eb'].
  cbn [fst snd] in *. subst ea' eb'.
  destruct Hal1 as [_ Hval1]. destruct Hal2 as [_ Hval2].
  assert (HM : (0 <= cond_Zopp sa (Z.pos ma') - cond_Zopp sb (Z.pos mb'))%Z).
  { destruct sa, sb; unfold cond_Zopp.
    - (* both negative: |a| <= |b| *)
      unfold SFleb in Hle. rewrite SFcompare_negative in Hle.
      assert (Hmag : at_most (S754_finite false ma ea) mb eb)
        by (apply leb_at_most; assumption).
      cbn [at_most] in Hmag. rewrite <- Hval1, <- Hval2 in Hmag.
      apply scaled_le_inv in Hmag. lia.
    - discriminate.
    - lia.
    - assert (Hmag : at_most (S754_finite false mb eb) ma ea)
        by (apply leb_at_most; assumption).
      cbn [at_most] in Hmag. rewrite <- Hval1, <- Hval2 in Hmag.
      apply scaled_le_inv in Hmag. lia. }
  unfold binary_normalize.
  destruct (cond_Zopp sa (Z.pos ma') - cond_Zopp sb (Z.pos mb'))%Z
    as [| m | m]; [exact I | | lia].
  unfold binary_round.
  match goal with
  | |- context [shl_align ?m ?e ?e'] => destruct (shl_align m e e') as [mz e0]
  end.
  apply binary_round_aux_not_negative.
Qed.

Lemma sub_not_negative (a b : float) :
  (b <=? a)%float = true -> not_negative (Prim2SF (a - b)).
Proof.
  intros H. rewrite leb_spec in H. rewrite sub_spec.
  apply SFsub_not_negative;
    [apply Prim2SF_valid | apply Prim2SF_valid | exact H].
Qed.

(** A quotient of a value that is not negative by a positive one is not
    negative. *)
Lemma div_not_negative (x y : float) :
  not_negative (Prim2SF x) -> (0 <? y)%float = true ->
  not_negative (Prim2SF (x / y)).
Proof.
  intros Hx Hy. rewrite ltb_spec in Hy. rewrite div_spec.
  change (Prim2SF 0) with (S754_zero false) in Hy.
  destruct (Prim2SF x) as [sx | sx | | sx mx ex],
    (Prim2SF y) as [sy | sy | | sy my ey];
    cbn in Hx; subst; try discriminate; try exact I;
    try (destruct sy; first [discriminate | exact I | reflexivity]).
  destruct sy; [discriminate |].
  unfold SF64div, SFdiv.
  destruct (SFdiv_core_binary prec emax (Z.pos mx) ex (Z.pos my) ey)
    as [[mz ez] lz].
  apply binary_round_aux_not_negative.
Qed.

(** [int] of a value that is not negative is not negative. *)
Lemma py_int_not_negative (q : float) (i : Z) :
  not_negative (Prim2SF q) -> py_int q = Some i -> (0 <= i)%Z.
Proof.
  unfold py_int.
  destruct (Prim2SF q) as [s | s | | s m e]; cbn [not_negative];
    intros Hq H; try discriminate.
  - injection H as <-. lia.
  - subst s. cbv zeta in H.
    assert (Hmag : (0 <= match e with
                         | Z.neg p => Z.pos m / 2 ^ Z.pos p
                         | _ => Z.pos m * 2 ^ e
                         end)%Z).
    { destruct e as [| p | p].
      - lia.
      - apply Z.mul_nonneg_nonneg; [lia | apply Z.pow_nonneg; lia].
      - apply Z.div_pos; [lia | apply Z.pow_pos_nonneg; lia]. }
    assert (Hi : i = match e with
                     | Z.neg p => (Z.pos m / 2 ^ Z.pos p)%Z
                     | _ => (Z.pos m * 2 ^ e)%Z
                     end) by congruence.
    rewrite Hi. exact Hmag.
Qed.

End FloatOrder.

(** * Geometry helpers *)

Section Geometry.
Context {L : Libm}.
Import Rules FloatFacts FloatSymmetry.


Lemma euclidean_swap (p q : float * float) : euclidean p q = euclidean q p.
Proof.
  unfold euclidean.
  rewrite (sq_sub_swap (fst q) (fst p)), (sq_sub_swap (snd q) (snd p)).
  reflexivity.
Qed.

Lemma euclidean_self (x y : float) :
  is_finite x = true -> is_finite y = true -> euclidean (x, y) (x, y) = 0%float.
Proof.
  intros Hx Hy. unfold euclidean. cbn [fst snd].
  rewrite (sub_self x Hx), (sub_self y Hy). vm_compute. reflexivity.
Qed.


(** X2.  The distance from a point with finite coordinates to itself is
    exactly 0. *)
Theorem calculate_distance_self (x y : float) :
  is_finite x = true -> is_finite y = true ->
  calculate_distance x y x y = Ok 0%float.
Proof.
  intros Hx Hy. rewrite calculate_distance_euclidean.
  rewrite (euclidean_self x y Hx Hy). reflexivity.
Qed.


(** X4.  [calculate_angle] does not depend on the order of its two outer
    points: the angle at p2 from p1 to p3 is the one from p3 to p1. *)
Theorem calculate_angle_symmetric (p1 p2 p3 : float * float) :
  calculate_angle p1 p2 p3 = calculate_angle p3 p2 p1.
Proof.
  destruct p1 as [x1 y1], p2 as [x2 y2], p3 as [x3 y3].
  unfold calculate_angle, Py.degrees. apply abs_mul_sub_swap.
Qed.

(** [calculate_centre_hip] does not depend on which hip comes first. *)
Lemma calculate_centre_hip_swap (lx ly rx ry : float) :
  calculate_centre_hip lx ly rx ry = calculate_centre_hip rx ry lx ly.
Proof.
  unfold calculate_centre_hip. rewrite (add_comm lx rx), (add_comm ly ry).
  reflexivity.
Qed.

End Geometry.

(** * Further properties of the scores *)

Section MoreScoring.
Context {L : Libm}.
Import Rules FloatFacts FloatSymmetry.


(** X6.  A frame whose torso has the (finite) coordinates of the previous
    frame's torso always gets sitting's low-movement weight and never
    walking's horizontal-movement weight: sitting scores at least 35 and
    walking at most 50. *)
Theorem still_torso_scores (row prev : JointFrame) :
  torso_x prev = torso_x row -> torso_y prev = torso_y row ->
  is_finite (torso_x row) = true -> is_finite (torso_y row) = true ->
  low_movement row (Some prev) = true
  /\ horizontal_movement row (Some prev) = false
  /\ exists s w,
      analyze_sitting row (Some prev) = Ok s /\ 35 <= s
      /\ analyze_walking row (Some prev) = Ok w /\ w <= 50.
Proof.
  intros Hx Hy Fx Fy.
  assert (Hlow : low_movement row (Some prev) = true).
  { unfold low_movement, pt. cbn [get_joint_coordinates].
    rewrite Hx, Hy, (euclidean_self _ _ Fx Fy). reflexivity. }
  assert (Hhor : horizontal_movement row (Some prev) = false).
  { unfold horizontal_movement. rewrite Hx, (sub_self _ Fx). reflexivity. }
  split; [exact Hlow |]. split; [exact Hhor |].
  exists (Z.min (sitting_sum row (Some prev)) 100),
    (Z.min (walking_sum row (Some prev)) 100).
  rewrite analyze_sitting_eq, analyze_walking_eq.
  unfold sitting_sum, walking_sum. rewrite Hlow, Hhor. unfold weight.
  destruct (legs_bent row), (torso_upright row), (feet_apart row);
    cbn; repeat split; lia.
Qed.

Lemma mirror_sums (row : JointFrame) (prev : option JointFrame) :
  sitting_sum (mirror row) prev = sitting_sum row prev
  /\ walking_sum (mirror row) prev = walking_sum row prev
  /\ climbing_sum (mirror row) = climbing_sum row.
Proof.
  unfold sitting_sum, walking_sum, climbing_sum.
  assert (Hlow : low_movement (mirror row) prev = low_movement row prev)
    by (destruct prev; reflexivity).
  assert (Hhor : horizontal_movement (mirror row) prev
                 = horizontal_movement row prev)
    by (destruct prev; reflexivity).
  assert (Hlegs : legs_bent (mirror row) = legs_bent row)
    by (unfold legs_bent, pt; cbn [get_joint_coordinates mirror
          left_hip_x left_hip_y left_knee_x left_knee_y
          right_hip_x right_hip_y right_knee_x right_knee_y];
        apply andb_comm).
  assert (Hup : torso_upright (mirror row) = torso_upright row).
  { unfold torso_upright, pt, midpoint.
    cbn [get_joint_coordinates mirror fst snd head_x head_y torso_x torso_y
           left_hip_x left_hip_y right_hip_x right_hip_y].
    rewrite (add_comm (right_hip_x row)), (add_comm (right_hip_y row)).
    reflexivity. }
  assert (Hfeet : feet_apart (mirror row) = feet_apart row).
  { unfold feet_apart, pt.
    cbn [get_joint_coordinates mirror left_foot_x left_foot_y
           right_foot_x right_foot_y].
    rewrite euclidean_swap. reflexivity. }
  assert (Harm : arm_extended (mirror row) = arm_extended row)
    by (unfold arm_extended, pt; cbn [get_joint_coordinates mirror
          left_shoulder_x left_shoulder_y left_hand_x left_hand_y
          right_shoulder_x right_shoulder_y right_hand_x right_hand_y];
        apply orb_comm).
  assert (Hhands : hands_elevated (mirror row) = hands_elevated row)
    by (unfold hands_elevated; cbn [mirror left_hand_y right_hand_y torso_y];
        apply andb_comm).
  assert (Hhang : feet_hanging (mirror row) = feet_hanging row)
    by (unfold feet_hanging; cbn [mirror left_foot_y right_foot_y torso_y];
        apply andb_comm).
  rewrite Hlow, Hhor, Hlegs, Hup, Hfeet, Harm, Hhands, Hhang.
  repeat split; reflexivity.
Qed.

(** X7.  Exchanging the left and right joints of a frame changes none of
    its three raw scores, whatever the previous frame. *)
Theorem mirror_scores (row : JointFrame) (prev : option JointFrame) :
  analyze_sitting (mirror row) prev = analyze_sitting row prev
  /\ analyze_walking (mirror row) prev = analyze_walking row prev
  /\ analyze_climbing (mirror row) prev = analyze_climbing row prev.
Proof.
  destruct (mirror_sums row prev) as (Hs & Hw & Hc).
  rewrite !analyze_sitting_eq, !analyze_walking_eq, !analyze_climbing_eq.
  rewrite Hs, Hw, Hc. repeat split; reflexivity.
Qed.

End MoreScoring.

(** * Further properties of the table *)

Section MoreFrames.
Context {L : Libm}.
Import Rules.

(** A previous row enters the scores through its torso only. *)
Lemma sums_previous (row : JointFrame) (prev prev' : option JointFrame) :
  option_map (fun p => (torso_x p, torso_y p)) prev
  = option_map (fun p => (torso_x p, torso_y p)) prev' ->
  sitting_sum row prev = sitting_sum row prev'
  /\ walking_sum row prev = walking_sum row prev'.
Proof.
  unfold sitting_sum, walking_sum, low_movement, horizontal_movement, pt.
  destruct prev as [p |], prev' as [p' |]; cbn [option_map];
    intros H; try discriminate; [| split; reflexivity].
  injection H as Hx Hy. cbn [get_joint_coordinates]. rewrite Hx, Hy.
  split; reflexivity.
Qed.

Lemma analyze_frame_local (data data' : list JointFrame) (i : nat) :
  nth_error data i = nth_error data' i ->
  previous data i = previous data' i ->
  analyze_frame data i = analyze_frame data' i.
Proof.
  intros Hrow Hprev.
  destruct (nth_error data i) as [row |] eqn:Hi.
  - rewrite (analyze_frame_eq data i row Hi),
      (analyze_frame_eq data' i row (eq_sym Hrow)), Hprev.
    reflexivity.
  - rewrite !analyze_frame_out_of_range; [reflexivity | |].
    + apply nth_error_None. symmetry. exact Hrow.
    + apply nth_error_None. exact Hi.
Qed.

(** X8.  [analyze_frame] raises [IndexError] exactly when the index is past
    the end of the table; otherwise it returns a dictionary with the keys
    sitting, walking and climbing, in that order, and the result is the same
    for every table with the same rows at the index and just before it. *)
Theorem analyze_frame_index (data : list JointFrame) (i : nat) :
  ((List.length data <= i)%nat <-> analyze_frame data i = Raise IndexError)
  /\ ((i < List.length data)%nat ->
      exists confidences,
        analyze_frame data i = Ok confidences
        /\ map fst confidences = behaviors)
  /\ forall data',
      nth_error data' i = nth_error data i ->
      previous data' i = previous data i ->
      analyze_frame data' i = analyze_frame data i.
Proof.
  assert (Hin : (i < List.length data)%nat ->
                exists confidences,
                  analyze_frame data i = Ok confidences
                  /\ map fst confidences = behaviors).
  { intros Hi.
    destruct (frame_cases data i Hi) as (s & w & c & Hs & Hw & Hc & Hf).
    rewrite Hf. clear Hf. split_scores;
      (eexists; split; [vm_compute; reflexivity | reflexivity]). }
  split; [| split; [exact Hin |]].
  - split; [apply analyze_frame_out_of_range |].
    intros Hraise.
    destruct (Nat.le_gt_cases (List.length data) i) as [Hle | Hlt];
      [exact Hle |].
    destruct (Hin Hlt) as (confidences & Hok & _).
    rewrite Hok in Hraise. discriminate.
  - intros data' Hrow Hprev. apply analyze_frame_local; assumption.
Qed.

Lemma frame_result_local (data data' : list JointFrame) (i : nat) :
  nth_error data i = nth_error data' i ->
  previous data i = previous data' i ->
  frame_result data i = frame_result data' i.
Proof.
  intros Hrow Hprev. rewrite !frame_result_classify.
  rewrite (analyze_frame_local data data' i Hrow Hprev). reflexivity.
Qed.

Lemma frame_result_app (data more : list JointFrame) (i : nat) :
  (i < List.length data)%nat ->
  frame_result (data ++ more) i = frame_result data i.
Proof.
  intros Hi. apply frame_result_local.
  - apply nth_error_app1. exact Hi.
  - destruct i as [| i]; [reflexivity |]. cbn [previous].
    apply nth_error_app1. lia.
Qed.

(** X9.  Appending frames to a table leaves the records of the frames
    already there unchanged: the output for the longer table starts with
    the output for the shorter one. *)
Theorem analyze_all_frames_prefix (data more : list JointFrame) :
  exists results rest,
    analyze_all_frames data = Ok results
    /\ analyze_all_frames (data ++ more) = Ok (results ++ rest)
    /\ List.length rest = List.length more.
Proof.
  destruct (analyze_all_frames_spec data) as (rs & Hrs & Hlen & Hnth).
  destruct (analyze_all_frames_spec (data ++ more))
    as (rs' & Hrs' & Hlen' & Hnth').
  rewrite length_app in Hlen'.
  exists rs, (skipn (List.length data) rs').
  split; [exact Hrs |]. split.
  - rewrite Hrs'. f_equal.
    rewrite <- (firstn_skipn (List.length data) rs') at 1. f_equal.
    apply nth_error_ext. intros i.
    destruct (Nat.lt_ge_cases i (List.length data)) as [Hi | Hi].
    + rewrite nth_error_firstn.
      replace (i <? List.length data)%nat with true
        by (symmetry; apply Nat.ltb_lt; exact Hi).
      destruct (nth_error rs' i) as [r' |] eqn:Hr';
        [| apply nth_error_None in Hr'; lia].
      destruct (nth_error rs i) as [r |] eqn:Hr;
        [| apply nth_error_None in Hr; lia].
      apply Hnth' in Hr'. apply Hnth in Hr.
      rewrite (frame_result_app data more i Hi) in Hr'. congruence.
    + rewrite nth_error_firstn.
      replace (i <? List.length data)%nat with false
        by (symmetry; apply Nat.ltb_ge; exact Hi).
      symmetry. apply nth_error_None. lia.
  - rewrite length_skipn. lia.
Qed.

Lemma analyze_loop_ext (data data' : list JointFrame) (indices : list nat) :
  (forall i, In i indices -> frame_result data i = frame_result data' i) ->
  forall results,
    analyze_loop data indices results = analyze_loop data' indices results.
Proof.
  induction indices as [| i rest IH]; intros H results; [reflexivity |].
  cbn [analyze_loop]. rewrite (H i (or_introl eq_refl)).
  destruct (frame_result data' i) as [r | e]; [| reflexivity].
  cbn [bind]. apply IH. intros j Hj. apply H. right. exact Hj.
Qed.

(** X10.  Exchanging left and right in every row of a table changes no
    record of the output. *)
Theorem analyze_all_frames_mirror (data : list JointFrame) :
  analyze_all_frames (map mirror data) = analyze_all_frames data.
Proof.
  unfold analyze_all_frames. rewrite length_map.
  apply analyze_loop_ext. intros i _.
  rewrite !frame_result_classify. f_equal.
  destruct (nth_error data i) as [row |] eqn:Hrow.
  - rewrite (analyze_frame_eq data i row Hrow).
    rewrite (analyze_frame_eq (map mirror data) i (mirror row))
      by (rewrite nth_error_map, Hrow; reflexivity).
    destruct (mirror_sums row (previous (map mirror data) i))
      as (Hs & Hw & Hc).
    rewrite Hs, Hw, Hc.
    destruct (sums_previous row (previous (map mirror data) i)
                (previous data i)) as [Hs' Hw'].
    { destruct i as [| i]; [reflexivity |]. cbn [previous].
      rewrite nth_error_map. destruct (nth_error data i); reflexivity. }
    rewrite Hs', Hw'. reflexivity.
  - apply nth_error_None in Hrow.
    rewrite !analyze_frame_out_of_range; [reflexivity | exact Hrow |].
    rewrite length_map. exact Hrow.
Qed.

End MoreFrames.

(** * Further properties of the records *)

Section MoreRecords.
Context {L : Libm}.

Lemma classify_contract (i : nat) (s w c : Z) :
  In s sitting_scores -> In w walking_scores -> In c climbing_scores ->
  exists confidences r,
    normalize (raw_dict s w c) = Ok confidences
    /\ classify i confidences = Ok r
    /\ In (Classified_Behavior r) ["sitting"; "walking"; "climbing"; "unknown"]
    /\ (forall b,
           py_le (PyInt 0) (column b r) = true
           /\ py_le (column b r) (PyInt 100) = true)
    /\ py_le (PyInt 0) (Confidence r) = true
    /\ py_le (Confidence r) (PyInt 100) = true
    /\ (Classified_Behavior r = "unknown"
        <-> py_lt (Confidence r) (PyInt 40) = true).
Proof.
  intros Hs Hw Hc. split_scores;
    (eexists; eexists; split; [vm_compute; reflexivity |];
     split; [reflexivity |];
     split; [cbn; repeat (first [left; reflexivity | right]) |];
     split; [intros []; split; vm_compute; reflexivity |];
     split; [vm_compute; reflexivity |];
     split; [vm_compute; reflexivity |];
     vm_compute; split; intros H; first [reflexivity | discriminate]).
Qed.

(** X11.  Every record of the output has one of the four labels sitting,
    walking, climbing and unknown; its three confidences and its
    [Confidence] lie between 0 and 100 (none is nan); and its label is
    unknown exactly when its [Confidence] is below 40. *)
Theorem output_contract (data : list JointFrame) (results : list FrameResult)
    (i : nat) (r : FrameResult) :
  analyze_all_frames data = Ok results ->
  nth_error results i = Some r ->
  In (Classified_Behavior r) ["sitting"; "walking"; "climbing"; "unknown"]
  /\ (forall b,
         py_le (PyInt 0) (column b r) = true
         /\ py_le (column b r) (PyInt 100) = true)
  /\ py_le (PyInt 0) (Confidence r) = true
  /\ py_le (Confidence r) (PyInt 100) = true
  /\ (Classified_Behavior r = "unknown"
      <-> py_lt (Confidence r) (PyInt 40) = true).
Proof.
  intros Hall Hr.
  destruct (output_row data results i r Hall Hr) as [Hi Hres].
  destruct (frame_cases data i Hi) as (s & w & c & Hs & Hw & Hc & Hf).
  destruct (classify_contract i s w c Hs Hw Hc)
    as (confidences & r' & Hn & Hcl & Hprops).
  rewrite frame_result_classify, Hf, Hn in Hres. cbn [bind] in Hres.
  rewrite Hcl in Hres. injection Hres as <-. exact Hprops.
Qed.

Lemma normalize_order (s w c : Z) :
  In s sitting_scores -> In w walking_scores -> In c climbing_scores ->
  exists confidences,
    normalize (raw_dict s w c) = Ok confidences
    /\ forall b b',
        exists v v',
          dict_get confidences (name b) = Ok v
          /\ dict_get confidences (name b') = Ok v'
          /\ py_lt v v' = (raw_of b s w c <? raw_of b' s w c)
          /\ py_eq v v' = (raw_of b s w c =? raw_of b' s w c).
Proof.
  intros Hs Hw Hc. split_scores;
    (eexists; split; [vm_compute; reflexivity |];
     intros [] []; eexists; eexists;
     (split; [reflexivity |]); (split; [reflexivity |]);
     split; vm_compute; reflexivity).
Qed.

(** X12.  Normalisation keeps the order of the three scores of a frame: one
    normalised confidence is below (equal to) another exactly when its raw
    score is; rounding creates and removes no tie. *)
Theorem normalize_preserves_order (data : list JointFrame) (i : nat)
    (row : JointFrame) :
  nth_error data i = Some row ->
  exists s w c confidences,
    raw_confidences row (previous data i) = Ok (raw_dict s w c)
    /\ analyze_frame data i = Ok confidences
    /\ forall b b',
        exists v v',
          dict_get confidences (name b) = Ok v
          /\ dict_get confidences (name b') = Ok v'
          /\ py_lt v v' = (raw_of b s w c <? raw_of b' s w c)
          /\ py_eq v v' = (raw_of b s w c =? raw_of b' s w c).
Proof.
  intros Hrow.
  exists (Rules.sitting_sum row (previous data i)),
    (Rules.walking_sum row (previous data i)), (Rules.climbing_sum row).
  destruct (normalize_order (Rules.sitting_sum row (previous data i))
              (Rules.walking_sum row (previous data i))
              (Rules.climbing_sum row))
    as (confidences & Hn & Hord);
    [apply sitting_sum_values | apply walking_sum_values
    | apply climbing_sum_values |].
  exists confidences.
  split; [apply raw_confidences_eq |].
  rewrite (analyze_frame_eq data i row Hrow). split; assumption.
Qed.

Lemma classify_from_raw (i : nat) (s w c : Z) :
  In s sitting_scores -> In w walking_scores -> In c climbing_scores ->
  exists confidences r b,
    normalize (raw_dict s w c) = Ok confidences
    /\ classify i confidences = Ok r
    /\ (forall b', raw_of b' s w c <= raw_of b s w c)
    /\ (forall b', (rank b' < rank b)%nat -> raw_of b' s w c < raw_of b s w c)
    /\ Classified_Behavior r
       = (if (100 * raw_of b s w c <? 40 * (s + w + c)) || (s + w + c =? 0)
          then "unknown" else name b).
Proof.
  intros Hs Hw Hc. split_scores;
    (eexists; eexists;
     first [exists sitting; split; [vm_compute; reflexivity |];
            split; [reflexivity |];
            split; [intros []; cbn; lia |];
            split; [intros []; cbn; lia |];
            vm_compute; reflexivity
           |exists walking; split; [vm_compute; reflexivity |];
            split; [reflexivity |];
            split; [intros []; cbn; lia |];
            split; [intros []; cbn; lia |];
            vm_compute; reflexivity
           |exists climbing; split; [vm_compute; reflexivity |];
            split; [reflexivity |];
            split; [intros []; cbn; lia |];
            split; [intros []; cbn; lia |];
            vm_compute; reflexivity]).
Qed.

(** X13.  The label of a record can be read off the raw scores without any
    floating-point arithmetic: it is the first category with the largest
    raw score, replaced by unknown exactly when 100 times that score is
    below 40 times the sum of the three, or when all three are 0. *)
Theorem label_from_raw_scores (data : list JointFrame)
    (results : list FrameResult) (i : nat) (r : FrameResult) :
  analyze_all_frames data = Ok results ->
  nth_error results i = Some r ->
  exists row s w c b,
    nth_error data i = Some row
    /\ raw_confidences row (previous data i) = Ok (raw_dict s w c)
    /\ (forall b', raw_of b' s w c <= raw_of b s w c)
    /\ (forall b', (rank b' < rank b)%nat -> raw_of b' s w c < raw_of b s w c)
    /\ Classified_Behavior r
       = (if (100 * raw_of b s w c <? 40 * (s + w + c)) || (s + w + c =? 0)
          then "unknown" else name b).
Proof.
  intros Hall Hr.
  destruct (output_row data results i r Hall Hr) as [Hi Hres].
  destruct (nth_error data i) as [row |] eqn:Hrow;
    [| apply nth_error_None in Hrow; lia].
  pose proof (sitting_sum_values row (previous data i)) as Hs.
  pose proof (walking_sum_values row (previous data i)) as Hw.
  pose proof (climbing_sum_values row) as Hc.
  destruct (classify_from_raw i _ _ _ Hs Hw Hc)
    as (confidences & r' & b & Hn & Hcl & Hmax & Hfirst & Hlab).
  rewrite frame_result_classify, (analyze_frame_eq data i row Hrow), Hn
    in Hres.
  cbn [bind] in Hres. rewrite Hcl in Hres. injection Hres as <-.
  exists row, (Rules.sitting_sum row (previous data i)),
    (Rules.walking_sum row (previous data i)), (Rules.climbing_sum row), b.
  split; [reflexivity |]. split; [apply raw_confidences_eq |]. auto.
Qed.

End MoreRecords.

(** * The video overlay *)

Section OverlayFacts.
Variable upper : string -> string.
Variable df : list FrameResult.
Variables fps start_time frame_interval : float.

Abbreviation frame_overlay :=
  (overlay_frame upper df fps start_time frame_interval).
Abbreviation loop :=
  (overlay_loop upper df fps start_time frame_interval).
Abbreviation run :=
  (add_behavior_overlay upper df fps start_time frame_interval).

Lemma iloc_row_In {A : Type} (l : list A) (i : Z) (a : A) :
  iloc_row l i = Some a -> In a l.
Proof.
  unfold iloc_row.
  destruct (0 <=? i); [apply nth_error_In |].
  destruct (- Z.of_nat (List.length l) <=? i);
    [apply nth_error_In | discriminate].
Qed.

Lemma overlay_frame_from_table (k : Z) (current shown : overlay) :
  from_table upper df current ->
  frame_overlay k current = Some shown ->
  from_table upper df shown.
Proof.
  intros Hcur. unfold overlay_frame.
  destruct (float_truediv _ fps) as [t |]; [| discriminate].
  destruct (start_time <=? t)%float;
    [| intros H; injection H as <-; exact Hcur].
  destruct (float_truediv _ frame_interval) as [q |]; [| discriminate].
  destruct (py_int q) as [i |]; [| discriminate].
  destruct (i <? Z.of_nat (List.length df));
    [| intros H; injection H as <-; exact Hcur].
  destruct (iloc_row df i) as [row |] eqn:Hrow; [| discriminate].
  intros H. injection H as <-. right. exists row.
  split; [eapply iloc_row_In; eassumption | reflexivity].
Qed.

Lemma overlay_loop_from_table (n : nat) (k : Z) (current : overlay) :
  from_table upper df current ->
  Forall (from_table upper df) (fst (loop n k current))
  /\ (snd (loop n k current) = true ->
      List.length (fst (loop n k current)) = n).
Proof.
  revert k current. induction n as [| n IH]; intros k current Hcur.
  - split; [constructor | reflexivity].
  - cbn [overlay_loop].
    destruct (frame_overlay k current) as [shown |] eqn:Hshown.
    + pose proof (overlay_frame_from_table k current shown Hcur Hshown)
        as Hs.
      destruct (IH (k + 1) shown Hs) as [Hall Hlen].
      destruct (loop n (k + 1) shown) as [ws ok]. cbn [fst snd] in *.
      split; [constructor; assumption |].
      intros Hok. cbn [List.length]. rewrite Hlen by exact Hok. reflexivity.
    + split; [constructor | discriminate].
Qed.

(** X14.  Whatever the arguments, every frame written to the output video
    carries the initial overlay (UNKNOWN, 100.0) or the upper-cased label
    and the confidence of a row of the table; a call that finishes has
    written one frame per frame read, and a frame rate of 0 is refused
    before any frame is written. *)
Theorem overlay_from_table (frames : nat) :
  Forall (from_table upper df) (written (run frames))
  /\ (forall ws, run frames = Finished ws -> List.length ws = frames)
  /\ ((fps =? 0)%float = true -> run frames = Raised FpsUnknown []).
Proof.
  unfold add_behavior_overlay.
  destruct (fps =? 0)%float.
  - split; [constructor |]. split; [discriminate | reflexivity].
  - destruct (overlay_loop_from_table frames 0 initial_overlay
                (or_introl eq_refl)) as [Hall Hlen].
    destruct (loop frames 0 initial_overlay) as [ws ok].
    cbn [fst snd] in *.
    destruct ok; cbn [written].
    + split; [exact Hall |]. split; [| discriminate].
      intros ws' H. injection H as <-. apply Hlen. reflexivity.
    + split; [exact Hall |]. split; discriminate.
Qed.

Lemma overlay_frame_not_started (k : nat) (current : overlay) :
  (fps =? 0)%float = false ->
  started fps start_time k = false ->
  frame_overlay (Z.of_nat k) current = Some current.
Proof.
  intros Hfps Hk. unfold overlay_frame, float_truediv. rewrite Hfps.
  unfold started in Hk. rewrite Hk. reflexivity.
Qed.

Lemma overlay_loop_before_start (n k : nat) :
  (fps =? 0)%float = false ->
  exists rest,
    fst (loop n (Z.of_nat k) initial_overlay)
    = repeat initial_overlay (frames_before_start fps start_time k n) ++ rest.
Proof.
  intros Hfps. revert k. induction n as [| n IH]; intros k.
  - exists []. reflexivity.
  - cbn [overlay_loop frames_before_start].
    destruct (started fps start_time k) eqn:Hk.
    + eexists. cbn [repeat app]. reflexivity.
    + rewrite (overlay_frame_not_started k _ Hfps Hk).
      destruct (IH (S k)) as [rest Hrest].
      replace (Z.of_nat k + 1) with (Z.of_nat (S k)) by lia.
      destruct (loop n (Z.of_nat (S k)) initial_overlay) as [ws ok].
      cbn [fst] in *. exists rest. rewrite Hrest. reflexivity.
Qed.

(** X15.  With a frame rate other than 0, every frame before the first one
    whose time [frame_count / fps] has reached [start_time] is written with
    the initial overlay (UNKNOWN, 100.0). *)
Theorem overlay_before_start (frames : nat) :
  (fps =? 0)%float = false ->
  exists rest,
    written (run frames)
    = repeat initial_overlay (frames_before_start fps start_time 0 frames)
      ++ rest.
Proof.
  intros Hfps. unfold add_behavior_overlay. rewrite Hfps.
  destruct (overlay_loop_before_start frames 0 Hfps) as [rest Hrest].
  cbn [Z.of_nat] in Hrest.
  destruct (loop frames 0 initial_overlay) as [ws ok]. cbn [fst] in Hrest.
  exists rest. destruct ok; exact Hrest.
Qed.

Lemma overlay_frame_zero_interval (k : nat) (current : overlay) :
  (fps =? 0)%float = false ->
  (frame_interval =? 0)%float = true ->
  started fps start_time k = true ->
  frame_overlay (Z.of_nat k) current = None.
Proof.
  intros Hfps Hzero Hk. unfold overlay_frame, float_truediv. rewrite Hfps.
  unfold started in Hk. rewrite Hk, Hzero. reflexivity.
Qed.

Lemma overlay_loop_zero_interval (n k : nat) :
  (fps =? 0)%float = false ->
  (frame_interval =? 0)%float = true ->
  loop n (Z.of_nat k) initial_overlay
  = (repeat initial_overlay (frames_before_start fps start_time k n),
     (frames_before_start fps start_time k n =? n)%nat).
Proof.
  intros Hfps Hzero. revert k. induction n as [| n IH]; intros k.
  - reflexivity.
  - cbn [overlay_loop frames_before_start].
    destruct (started fps start_time k) eqn:Hk.
    + rewrite (overlay_frame_zero_interval k _ Hfps Hzero Hk). reflexivity.
    + rewrite (overlay_frame_not_started k _ Hfps Hk).
      replace (Z.of_nat k + 1) with (Z.of_nat (S k)) by lia.
      rewrite IH. reflexivity.
Qed.

(** X16.  A frame interval of 0 is not refused up front.  The call writes
    the frames before [start_time] with the initial overlay and raises at
    the first frame whose time has reached [start_time]; it finishes only
    if no frame of the video gets that far. *)
Theorem overlay_zero_interval (frames : nat) :
  (fps =? 0)%float = false ->
  (frame_interval =? 0)%float = true ->
  run frames
  = (if (frames_before_start fps start_time 0 frames =? frames)%nat
     then Finished (repeat initial_overlay frames)
     else Raised ProcessingError
            (repeat initial_overlay
               (frames_before_start fps start_time 0 frames))).
Proof.
  intros Hfps Hzero. unfold add_behavior_overlay. rewrite Hfps.
  pose proof (overlay_loop_zero_interval frames 0 Hfps Hzero) as Hloop.
  cbn [Z.of_nat] in Hloop. rewrite Hloop.
  destruct (frames_before_start fps start_time 0 frames =? frames)%nat
    eqn:Heq; [| reflexivity].
  apply Nat.eqb_eq in Heq. rewrite Heq. reflexivity.
Qed.

Lemma positive_not_zero (y : float) :
  (0 <? y)%float = true -> (y =? 0)%float = false.
Proof.
  rewrite FloatAxioms.ltb_spec, FloatAxioms.eqb_spec.
  change (Prim2SF 0) with (S754_zero false).
  destruct (Prim2SF y) as [s | [|] | | [|] m e]; cbn;
    first [discriminate | reflexivity].
Qed.

(** X17.  With a positive frame interval the position computed for a frame
    is never negative, so the table is never read from its end and no
    [IndexError] is raised: the frame takes the overlay of the row at
    position [int((t - start_time) / frame_interval)] counted from the
    top, or keeps the current overlay when that position is past the last
    row.  The only exception left is [int] of an infinite or nan
    quotient. *)
Theorem overlay_positive_interval (k : Z) (current : overlay) :
  (fps =? 0)%float = false ->
  (0 <? frame_interval)%float = true ->
  frame_overlay k current
  = (if (start_time <=? Py.float_of_Z k / fps)%float then
       match
         py_int ((Py.float_of_Z k / fps - start_time) / frame_interval)%float
       with
       | None => None
       | Some csv_index =>
           match nth_error df (Z.to_nat csv_index) with
           | Some row =>
               Some {| current_behavior := upper (Classified_Behavior row);
                       current_confidence := Confidence row |}
           | None => Some current
           end
       end
     else Some current)
  /\ forall csv_index,
      (start_time <=? Py.float_of_Z k / fps)%float = true ->
      py_int ((Py.float_of_Z k / fps - start_time) / frame_interval)%float
      = Some csv_index ->
      0 <= csv_index.
Proof.
  intros Hfps Hpos.
  assert (Hnonneg : forall csv_index,
             (start_time <=? Py.float_of_Z k / fps)%float = true ->
             py_int ((Py.float_of_Z k / fps - start_time)
                     / frame_interval)%float = Some csv_index ->
             0 <= csv_index).
  { intros i Hstart Hint.
    eapply FloatOrder.py_int_not_negative; [| exact Hint].
    apply FloatOrder.div_not_negative; [| exact Hpos].
    apply FloatOrder.sub_not_negative. exact Hstart. }
  split; [| exact Hnonneg].
  unfold overlay_frame, float_truediv.
  rewrite Hfps, (positive_not_zero _ Hpos).
  destruct (start_time <=? Py.float_of_Z k / fps)%float eqn:Hstart;
    [| reflexivity].
  destruct (py_int _) as [i |] eqn:Hint; [| reflexivity].
  pose proof (Hnonneg i eq_refl eq_refl) as Hi.
  unfold iloc_row.
  replace (0 <=? i) with true by (symmetry; apply Z.leb_le; exact Hi).
  destruct (i <? Z.of_nat (List.length df)) eqn:Hlt.
  - apply Z.ltb_lt in Hlt.
    destruct (nth_error df (Z.to_nat i)) as [row |] eqn:Hrow;
      [reflexivity |].
    apply nth_error_None in Hrow. lia.
  - apply Z.ltb_ge in Hlt.
    replace (nth_error df (Z.to_nat i)) with (@None FrameResult);
      [reflexivity |].
    symmetry. apply nth_error_None. lia.
Qed.

End OverlayFacts.

(** * The column clean-up *)

Section PreprocessFacts.
Context {cell number : Type} {N : ToNumeric cell number}.

Lemma filter_label_map {A B : Type} (mask : string -> bool)
    (f : list A -> list B) (l : list (string * list A)) :
  filter (fun column => mask (fst column))
         (map (fun column => (fst column, f (snd column))) l)
  = map (fun column => (fst column, f (snd column)))
        (filter (fun column => mask (fst column)) l).
Proof.
  induction l as [| c l IH]; [reflexivity |].
  cbn [map filter fst]. destruct (mask (fst c)); cbn [map]; rewrite IH;
    reflexivity.
Qed.

Lemma renamed_columns {A B : Type} (f : list A -> list B)
    (names : list string) (l : list (string * list A)) :
  combine names (map snd (map (fun column => (fst column, f (snd column))) l))
  = map (fun named => (fst named, f (snd (snd named)))) (combine names l).
Proof.
  revert l. induction names as [| name names IH]; intros [| c l];
    try reflexivity.
  cbn [map combine fst snd]. rewrite IH. reflexivity.
Qed.

Lemma combine_firstn_names {A : Type} (names : list string) (l : list A) :
  combine names (firstn (List.length names) l) = combine names l.
Proof.
  revert l. induction names as [| name names IH]; intros [| c l];
    try reflexivity.
  cbn [List.length firstn combine]. rewrite IH. reflexivity.
Qed.

(** The three outcomes of [preprocess_csv]. *)
Lemma preprocess_csv_eq (data : DataFrame cell) :
  preprocess_csv data
  = if (index_length data <? 2)%nat then Raise KeyError
    else if (List.length (test_columns data) <? List.length column_names)%nat
         then Raise ValueError
         else Ok {| index_length := index_length data - 2;
                    columns :=
                      map (fun named =>
                             (fst named,
                              to_numeric (skipn 2 (snd (snd named)))))
                          (combine column_names (test_columns data)) |}.
Proof.
  unfold preprocess_csv, drop_0_1, test_columns.
  destruct (index_length data <? 2)%nat; [reflexivity |].
  unfold loc_columns, iloc_columns, set_columns.
  cbn [bind]. cbv zeta. cbn [columns index_length].
  rewrite (filter_label_map (String.prefix "test") (skipn 2)).
  set (tests := filter _ (columns data)).
  set (names := column_names). clearbody names.
  destruct (List.length names <? List.length (map _ tests))%nat eqn:Hmore;
    rewrite length_map in Hmore; cbn [columns index_length].
  - apply Nat.ltb_lt in Hmore.
    rewrite length_firstn, length_map.
    replace (Nat.min (List.length names) (List.length tests))
      with (List.length names) by lia.
    rewrite Nat.eqb_refl. cbn [bind columns index_length].
    replace (List.length tests <? List.length names)%nat with false
      by (symmetry; apply Nat.ltb_ge; lia).
    rewrite <- firstn_map, combine_firstn_names.
    rewrite (renamed_columns (skipn 2)), map_map. reflexivity.
  - apply Nat.ltb_ge in Hmore. rewrite length_map.
    destruct (List.length names =? List.length tests)%nat eqn:Hsame.
    + apply Nat.eqb_eq in Hsame.
      replace (List.length tests <? List.length names)%nat with false
        by (symmetry; apply Nat.ltb_ge; lia).
      cbn [bind columns index_length].
      rewrite (renamed_columns (skipn 2)), map_map. reflexivity.
    + apply Nat.eqb_neq in Hsame.
      replace (List.length tests <? List.length names)%nat with true
        by (symmetry; apply Nat.ltb_lt; lia).
      reflexivity.
Qed.

(** X18.  [preprocess_csv] raises [KeyError] exactly when the table read has
    fewer than two rows, and [ValueError] exactly when it has two rows but
    fewer than thirty columns whose label starts with [test]; in every
    other case it writes a table. *)
Theorem preprocess_csv_errors (data : DataFrame cell) :
  (preprocess_csv data = Raise KeyError <-> (index_length data < 2)%nat)
  /\ (preprocess_csv data = Raise ValueError
      <-> (2 <= index_length data)%nat
          /\ (List.length (test_columns data) < 30)%nat)
  /\ ((exists out, preprocess_csv data = Ok out)
      <-> (2 <= index_length data)%nat
          /\ (30 <= List.length (test_columns data))%nat).
Proof.
  rewrite preprocess_csv_eq.
  change (List.length column_names) with 30%nat.
  destruct (index_length data <? 2)%nat eqn:Hrows;
    [apply Nat.ltb_lt in Hrows | apply Nat.ltb_ge in Hrows];
    [| destruct (List.length (test_columns data) <? 30)%nat eqn:Hcols;
       [apply Nat.ltb_lt in Hcols | apply Nat.ltb_ge in Hcols]];
    repeat match goal with
      | |- _ /\ _ => split
      | |- _ <-> _ => split
      | |- _ -> _ => intro
      | H : _ /\ _ |- _ => destruct H
      | H : exists _, _ |- _ => destruct H
      | H : @eq (result _) _ _ |- _ => discriminate H
      end;
    try lia; try reflexivity; eexists; reflexivity.
Qed.

Lemma map_fst_named {A B : Type} (f : string * A -> B) (names : list string)
    (l : list A) :
  (List.length names <= List.length l)%nat ->
  map fst (map (fun named => (fst named, f named)) (combine names l)) = names.
Proof.
  revert l. induction names as [| name names IH]; intros [| c l] H;
    cbn [List.length] in H; try reflexivity; try lia.
  cbn [combine map fst]. rewrite IH by lia. reflexivity.
Qed.

(** X19.  A table written by [preprocess_csv] has exactly the thirty
    coordinate columns, in the order of [column_names], and two rows fewer
    than the table read; its columns are as long as its index when those
    of the table read are.  The names go by position: whatever its label,
    the [k]-th [test] column of the table read becomes the column with the
    [k]-th name, converted, without its first two cells; [test] columns
    from the thirty-first on are left out. *)
Theorem preprocess_csv_columns (data : DataFrame cell)
    (out : DataFrame number) :
  preprocess_csv data = Ok out ->
  map fst (columns out) = column_names
  /\ index_length out = (index_length data - 2)%nat
  /\ (well_formed data -> well_formed out)
  /\ forall k label values,
      (k < 30)%nat ->
      nth_error (test_columns data) k = Some (label, values) ->
      exists name,
        nth_error column_names k = Some name
        /\ nth_error (columns out) k
           = Some (name, to_numeric (skipn 2 values)).
Proof.
  rewrite preprocess_csv_eq.
  destruct (index_length data <? 2)%nat eqn:Hrows; [discriminate |].
  destruct (List.length (test_columns data) <? List.length column_names)%nat
    eqn:Hcols; [discriminate |].
  apply Nat.ltb_ge in Hrows. apply Nat.ltb_ge in Hcols.
  intros H.
  match type of H with
  | Ok ?written = _ => assert (Hout : out = written) by congruence
  end.
  subst out. clear H. cbn [columns index_length].
  split; [| split; [reflexivity | split]].
  - apply (map_fst_named
             (fun named => to_numeric (skipn 2 (snd (snd named))))).
    exact Hcols.
  - unfold well_formed, test_columns. cbn [columns index_length].
    intros Hwf. apply Forall_map. apply Forall_forall.
    intros [name [label values]] Hin. cbn [fst snd].
    apply in_combine_r in Hin. apply filter_In in Hin as [Hin _].
    rewrite Forall_forall in Hwf. specialize (Hwf _ Hin). cbn [snd] in Hwf.
    rewrite to_numeric_length, length_skipn, Hwf. reflexivity.
  - intros k label values Hk Hnth.
    change (List.length column_names) with 30%nat in Hcols.
    destruct (nth_error column_names k) as [name |] eqn:Hname.
    + exists name. split; [reflexivity |].
      rewrite nth_error_map.
      assert (Hc : nth_error (combine column_names (test_columns data)) k
                   = Some (name, (label, values))).
      { clear Hcols Hrows Hk. revert k Hname Hnth.
        generalize (test_columns data). generalize column_names.
        induction l as [| n l IH]; intros [| c l'] [| k] Hn Hv;
          cbn in *; try discriminate.
        - congruence.
        - apply IH; assumption. }
      rewrite Hc. reflexivity.
    + apply nth_error_None in Hname.
      change (List.length column_names) with 30%nat in Hname. lia.
Qed.

End PreprocessFacts.

(** * Worked examples for the further properties *)

Lemma calculate_distance_self_witness :
  is_finite 3 = true /\ is_finite 4 = true
  /\ calculate_distance 3 4 3 4 = Ok 0%float.
Proof.
  split; [reflexivity |]. split; [reflexivity |].
  exact (calculate_distance_self 3 4 eq_refl eq_refl).
Defined.

Lemma still_torso_scores_witness :
  torso_x hanging_frame = torso_x resting_frame
  /\ torso_y hanging_frame = torso_y resting_frame
  /\ is_finite (torso_x resting_frame) = true
  /\ is_finite (torso_y resting_frame) = true
  /\ forall L : Libm,
      Rules.low_movement resting_frame (Some hanging_frame) = true
      /\ Rules.horizontal_movement resting_frame (Some hanging_frame) = false
      /\ exists s w,
          analyze_sitting resting_frame (Some hanging_frame) = Ok s
          /\ 35 <= s
          /\ analyze_walking resting_frame (Some hanging_frame) = Ok w
          /\ w <= 50.
Proof.
  do 4 (split; [reflexivity |]).
  intros L.
  exact (still_torso_scores resting_frame hanging_frame eq_refl eq_refl
           eq_refl eq_refl).
Defined.

Lemma output_contract_witness :
  (forall L : Libm,
      analyze_all_frames two_frames = Ok [hanging_record; resting_record])
  /\ forall L : Libm,
      In (Classified_Behavior hanging_record)
         ["sitting"; "walking"; "climbing"; "unknown"]
      /\ (forall b,
             py_le (PyInt 0) (column b hanging_record) = true
             /\ py_le (column b hanging_record) (PyInt 100) = true)
      /\ py_le (PyInt 0) (Confidence hanging_record) = true
      /\ py_le (Confidence hanging_record) (PyInt 100) = true
      /\ (Classified_Behavior hanging_record = "unknown"
          <-> py_lt (Confidence hanging_record) (PyInt 40) = true).
Proof.
  split; [exact two_frames_output |].
  intros L.
  exact (output_contract two_frames [hanging_record; resting_record] 0%nat
           hanging_record (two_frames_output L) eq_refl).
Defined.

Lemma normalize_preserves_order_witness :
  nth_error two_frames 0 = Some hanging_frame
  /\ forall L : Libm,
      exists s w c confidences,
        raw_confidences hanging_frame (previous two_frames 0)
        = Ok (raw_dict s w c)
        /\ analyze_frame two_frames 0 = Ok confidences
        /\ forall b b',
            exists v v',
              dict_get confidences (name b) = Ok v
              /\ dict_get confidences (name b') = Ok v'
              /\ py_lt v v' = (raw_of b s w c <? raw_of b' s w c)
              /\ py_eq v v' = (raw_of b s w c =? raw_of b' s w c).
Proof.
  split; [reflexivity |].
  intros L.
  exact (normalize_preserves_order two_frames 0%nat hanging_frame eq_refl).
Defined.

Lemma label_from_raw_scores_witness :
  (forall L : Libm,
      analyze_all_frames two_frames = Ok [hanging_record; resting_record])
  /\ forall L : Libm,
      exists row s w c b,
        nth_error two_frames 1 = Some row
        /\ raw_confidences row (previous two_frames 1) = Ok (raw_dict s w c)
        /\ (forall b', raw_of b' s w c <= raw_of b s w c)
        /\ (forall b',
               (rank b' < rank b)%nat -> raw_of b' s w c < raw_of b s w c)
        /\ Classified_Behavior resting_record
           = (if (100 * raw_of b s w c <? 40 * (s + w + c))
                 || (s + w + c =? 0)
              then "unknown" else name b).
Proof.
  split; [exact two_frames_output |].
  intros L.
  exact (label_from_raw_scores two_frames [hanging_record; resting_record]
           1%nat resting_record (two_frames_output L) eq_refl).
Defined.

Lemma overlay_before_start_witness :
  (30 =? 0)%float = false
  /\ exists rest,
      written (add_behavior_overlay upper_ascii
                 [hanging_record; resting_record] 30 default_start_time
                 default_frame_interval 400)
      = repeat initial_overlay
          (frames_before_start 30 default_start_time 0 400)
        ++ rest.
Proof.
  split; [reflexivity |].
  exact (overlay_before_start upper_ascii [hanging_record; resting_record]
           30 default_start_time default_frame_interval 400 eq_refl).
Defined.

Lemma overlay_zero_interval_witness :
  (30 =? 0)%float = false /\ (0 =? 0)%float = true
  /\ add_behavior_overlay upper_ascii [hanging_record; resting_record] 30
       default_start_time 0 400
     = (if (frames_before_start 30 default_start_time 0 400 =? 400)%nat
        then Finished (repeat initial_overlay 400)
        else Raised ProcessingError
               (repeat initial_overlay
                  (frames_before_start 30 default_start_time 0 400))).
Proof.
  split; [reflexivity |]. split; [reflexivity |].
  exact (overlay_zero_interval upper_ascii [hanging_record; resting_record]
           30 default_start_time 0 400 eq_refl eq_refl).
Defined.

Lemma overlay_positive_interval_witness :
  (30 =? 0)%float = false /\ (0 <? default_frame_interval)%float = true
  /\ overlay_frame upper_ascii [hanging_record; resting_record] 30
       default_start_time default_frame_interval 330 initial_overlay
     = (if (default_start_time <=? Py.float_of_Z 330 / 30)%float then
          match
            py_int ((Py.float_of_Z 330 / 30 - default_start_time)
                    / default_frame_interval)%float
          with
          | None => None
          | Some csv_index =>
              match
                nth_error [hanging_record; resting_record]
                          (Z.to_nat csv_index)
              with
              | Some row =>
                  Some {| current_behavior :=
                            upper_ascii (Classified_Behavior row);
                          current_confidence := Confidence row |}
              | None => Some initial_overlay
              end
          end
        else Some initial_overlay)
  /\ forall csv_index,
      (default_start_time <=? Py.float_of_Z 330 / 30)%float = true ->
      py_int ((Py.float_of_Z 330 / 30 - default_start_time)
              / default_frame_interval)%float
      = Some csv_index ->
      0 <= csv_index.
Proof.
  split; [reflexivity |]. split; [reflexivity |].
  exact (overlay_positive_interval upper_ascii
           [hanging_record; resting_record] 30 default_start_time
           default_frame_interval 330 initial_overlay eq_refl eq_refl).
Defined.

Lemma preprocess_csv_columns_witness :
  exists out,
    preprocess_csv raw_table = Ok out
    /\ map fst (columns out) = column_names
    /\ index_length out = (index_length raw_table - 2)%nat
    /\ (well_formed raw_table -> well_formed out)
    /\ forall k label values,
        (k < 30)%nat ->
        nth_error (test_columns raw_table) k = Some (label, values) ->
        exists name,
          nth_error column_names k = Some name
          /\ nth_error (columns out) k
             = Some (name, to_numeric (skipn 2 values)).
Proof.
  assert (H : exists out, preprocess_csv raw_table = Ok out)
    by (eexists; vm_compute; reflexivity).
  destruct H as [out H]. exists out. split; [exact H |].
  exact (preprocess_csv_columns raw_table out H).
Defined.
